(** * Matrimonial API: swipe / match state machine, discovery and sessions

    A shallow embedding of [main.py] (FastAPI handlers over a MongoDB
    database) and of the documents of [schemas.py].

    - A collection is the list of its documents in insertion order;
      [find_one] returns the first document that satisfies the query,
      [insert_one] appends, a cursor is the list of matching documents.
    - Handlers are computations in a state-and-exception monad over the
      database: an [HTTPException] leaves the database as it was when the
      exception was raised.
    - Values the handlers draw from their environment (the clock read by
      [now_utc], the [ObjectId] MongoDB gives to an inserted user, the token
      drawn by [secrets.token_urlsafe]) are arguments of the handlers.
    - Strings are byte strings; [lower] folds the ASCII letters. *)

From Stdlib Require Import List String Ascii ZArith Lia Bool Arith.
From Equations Require Import Equations.
Import ListNotations.
Open Scope string_scope.

(** ** Strings *)

Definition is_upper (c : ascii) : bool :=
  let n := nat_of_ascii c in ((65 <=? n) && (n <=? 90))%nat.

Definition ascii_lower (c : ascii) : ascii :=
  if is_upper c then ascii_of_nat (nat_of_ascii c + 32) else c.

(** [str.lower()] on ASCII text. *)
Fixpoint lower (s : string) : string :=
  match s with
  | EmptyString => EmptyString
  | String c s' => String (ascii_lower c) (lower s')
  end.



(** Every character of [s] satisfies [p]. *)
Fixpoint all_chars (p : ascii -> bool) (s : string) : bool :=
  match s with
  | EmptyString => true
  | String c s' => p c && all_chars p s'
  end.

Fixpoint drop (n : nat) (s : string) : string :=
  match n, s with
  | O, _ => s
  | S _, EmptyString => EmptyString
  | S n', String _ s' => drop n' s'
  end.

(** [s.replace(old, new)] for a non-empty [old]: the occurrences of [old]
    are found from the left and do not overlap; each is replaced by [new].
    (For an empty [old], which no call site passes, [s] is returned.) *)
Equations? str_replace (old new s : string) : string
  by wf (String.length s) lt :=
  str_replace old new EmptyString := EmptyString;
  str_replace old new (String c s')
    with (negb (old =? "") && String.prefix old (String c s')) => {
    | true := new ++ str_replace old new (drop (Nat.pred (String.length old)) s');
    | false := String c (str_replace old new s') }.
Proof.
  clear str_replace.
  assert (H : forall n t, String.length (drop n t) <= String.length t).
  { induction n as [|n IH]; intros [|d t]; simpl; auto. }
  specialize (H (Nat.pred (String.length old)) s'). lia.
Qed.

(** ** Time *)

(** A [datetime] in UTC, as microseconds since the epoch. *)
Definition datetime := Z.
Bind Scope Z_scope with datetime.

(** [timedelta(days=7)] *)
Definition seven_days : Z := 7 * 24 * 3600 * 1000000.

(** ** ObjectId *)

Module ObjectId.

(** An [ObjectId] is held by the 24 hexadecimal digits that [str] prints
    (letters in lower case); two ids are equal when these are. *)
Record t := mk { hex : string }.

Definition is_hex_digit (c : ascii) : bool :=
  let n := nat_of_ascii c in
  (((48 <=? n) && (n <=? 57)) || ((97 <=? n) && (n <=? 102))
   || ((65 <=? n) && (n <=? 70)))%nat.

(** [str(oid)] *)
Definition str (o : t) : string := hex o.

(** [ObjectId(s)]: [None] stands for [InvalidId]. *)
Definition of_str (s : string) : option t :=
  if (String.length s =? 24)%nat && all_chars is_hex_digit s
  then Some (mk (lower s)) else None.

Definition eqb (a b : t) : bool := (hex a =? hex b)%string.

(** The form [str] prints: 24 digits, the letters in lower case. *)
Definition canonical (o : t) : bool :=
  (String.length (hex o) =? 24)%nat
  && all_chars (fun c => is_hex_digit c && negb (is_upper c)) (hex o).

End ObjectId.

(** ** Documents ([schemas.py], with the fields [main.py] writes) *)

Module User.
Record t := mk {
  _id : ObjectId.t;
  name : string;
  email : string;
  password_hash : string;
  is_active : bool;
  gender : option string;
  date_of_birth : option string;
  location : option string;
  bio : option string;
  interests : list string;
  photos : list string;
  created_at : datetime;
  updated_at : datetime }.

(** [user["id"] = str(user["_id"])] *)
Definition id (u : t) : string := ObjectId.str (_id u).
End User.

Module Session.
Record t := mk {
  user_id : string;
  token : string;
  expires_at : datetime }.
End Session.

Module Swipe.
Record t := mk {
  user_id : string;
  target_id : string;
  action : string;
  created_at : datetime }.
End Swipe.

Module Match.
Record t := mk {
  user_a : string;
  user_b : string;
  created_at : datetime }.
End Match.

(** A user document read through the projection [{"password_hash": 0}],
    with the key ["id"] the handlers add to it. *)
Module Profile.
Record t := mk {
  _id : ObjectId.t;
  id : string;
  name : string;
  email : string;
  is_active : bool;
  gender : option string;
  date_of_birth : option string;
  location : option string;
  bio : option string;
  interests : list string;
  photos : list string;
  created_at : datetime;
  updated_at : datetime }.

Definition of_user (u : User.t) (uid : string) : t :=
  mk (User._id u) uid (User.name u) (User.email u) (User.is_active u)
     (User.gender u) (User.date_of_birth u) (User.location u) (User.bio u)
     (User.interests u) (User.photos u) (User.created_at u)
     (User.updated_at u).
End Profile.

(** ** The database: four collections, each in insertion order *)

Record DB := mkDB {
  db_user : list User.t;
  db_session : list Session.t;
  db_swipe : list Swipe.t;
  db_match : list Match.t }.

Definition empty_db : DB := mkDB [] [] [] [].

(** ** Requests and responses *)

Record SignupRequest := mkSignupRequest {
  signup_name : string; signup_email : string; signup_password : string }.

Record LoginRequest := mkLoginRequest {
  login_email : string; login_password : string }.

Record ProfileUpdate := mkProfileUpdate {
  upd_name : option string;
  upd_gender : option string;
  upd_date_of_birth : option string;
  upd_location : option string;
  upd_bio : option string;
  upd_interests : option (list string);
  upd_photos : option (list string) }.

Record SwipeRequest := mkSwipeRequest {
  target_id : string; action : string }.

Record SignupResponse := mkSignupResponse {
  resp_id : string; resp_email : string; resp_name : string }.

Record LoginResponse := mkLoginResponse {
  resp_token : string; resp_user : SignupResponse }.

(** [{"ok": ..., "match": ...}] *)
Record SwipeResponse := mkSwipeResponse { ok : bool; is_match : bool }.

(** ** Exceptions and the handler monad *)

Inductive Exception :=
| HTTPException (status_code : Z) (detail : string)
| InvalidId (oid : string).

Inductive outcome (A : Type) :=
| Return (a : A)
| Raise (e : Exception).
Arguments Return {A} a.
Arguments Raise {A} e.

Definition M (A : Type) : Type := DB -> DB * outcome A.

Definition ret {A} (a : A) : M A := fun db => (db, Return a).

Definition raise {A} (e : Exception) : M A := fun db => (db, Raise e).

Definition bind {A B} (m : M A) (k : A -> M B) : M B :=
  fun db =>
    match m db with
    | (db', Return a) => k a db'
    | (db', Raise e) => (db', Raise e)
    end.

Definition gets {A} (f : DB -> A) : M A := fun db => (db, Return (f db)).

Definition modify (f : DB -> DB) : M unit := fun db => (f db, Return tt).

Declare Scope handler_scope.
Delimit Scope handler_scope with handler.
Notation "x <- m ;; k" := (bind m (fun x => k))
  (at level 61, m at next level, right associativity) : handler_scope.
Notation "m ;;; k" := (bind m (fun _ => k))
  (at level 61, right associativity) : handler_scope.
Open Scope handler_scope.

(** ** Collection operations *)

(** [coll.find_one(q)]: the first document that satisfies [q]. *)
Definition find_one {A} (q : A -> bool) (coll : list A) : option A :=
  List.find q coll.

(** [coll.find(q)]: the documents that satisfy [q], in store order. *)
Definition find {A} (q : A -> bool) (coll : list A) : list A :=
  List.filter q coll.

(** [cursor.limit(n)] *)
Definition limit {A} (n : nat) (cursor : list A) : list A := firstn n cursor.

(** [coll.insert_one(d)] *)
Definition insert_one {A} (d : A) (coll : list A) : list A := coll ++ [d].

(** [coll.update_one(q, {"$set": ...})]: the first document that satisfies
    [q] is replaced by its update. *)
Fixpoint update_one {A} (q : A -> bool) (f : A -> A) (coll : list A) : list A :=
  match coll with
  | [] => []
  | d :: rest => if q d then f d :: rest else d :: update_one q f rest
  end.

Definition insert_user (u : User.t) (db : DB) : DB :=
  mkDB (insert_one u (db_user db)) (db_session db) (db_swipe db) (db_match db).

Definition insert_session (s : Session.t) (db : DB) : DB :=
  mkDB (db_user db) (insert_one s (db_session db)) (db_swipe db) (db_match db).

Definition insert_swipe (s : Swipe.t) (db : DB) : DB :=
  mkDB (db_user db) (db_session db) (insert_one s (db_swipe db)) (db_match db).

Definition insert_match (m : Match.t) (db : DB) : DB :=
  mkDB (db_user db) (db_session db) (db_swipe db) (insert_one m (db_match db)).

Definition update_user (q : User.t -> bool) (f : User.t -> User.t) (db : DB) : DB :=
  mkDB (update_one q f (db_user db)) (db_session db) (db_swipe db) (db_match db).

(** [x in l] for a list of strings. *)
Definition str_in (x : string) (l : list string) : bool :=
  existsb (String.eqb x) l.

(** A Python [set] of strings, used for membership only. *)
Definition str_set := list string.
Definition set_of (l : list string) : str_set := l.
Definition set_add (x : string) (s : str_set) : str_set := x :: s.
Definition set_mem (x : string) (s : str_set) : bool := str_in x s.

(** ** The handlers of [main.py] *)

(** The query of the session lookup:
    [{"token": token, "expires_at": {"$gt": now}}]. *)
Definition live_session (token : string) (now : datetime) (s : Session.t) : bool :=
  (Session.token s =? token) && (now <? Session.expires_at s)%Z.

(** [get_current_user]; [now] is the reading of [now_utc()]. *)
Definition get_current_user (now : datetime) (authorization : option string)
  : M User.t :=
  match authorization with
  | None | Some EmptyString =>
      raise (HTTPException 401 "Missing authorization header")
  | Some authorization =>
      let token := str_replace "Bearer " "" authorization in
      session <- gets (fun db => find_one (live_session token now) (db_session db)) ;;
      match session with
      | None => raise (HTTPException 401 "Invalid or expired token")
      | Some session =>
          match ObjectId.of_str (Session.user_id session) with
          | None => raise (InvalidId (Session.user_id session))
          | Some oid =>
              user <- gets (fun db =>
                        find_one (fun u => ObjectId.eqb (User._id u) oid) (db_user db)) ;;
              match user with
              | None => raise (HTTPException 401 "User not found")
              | Some user => ret user
              end
          end
      end
  end.

(** The query of the reciprocal lookup of [swipe]:
    [{"user_id": target, "target_id": actor, "action": "like"}]. *)
Definition reciprocal_like (actor target : string) (s : Swipe.t) : bool :=
  (Swipe.user_id s =? target) && (Swipe.target_id s =? actor)
  && (Swipe.action s =? "like").

(** The query of the existence check of [swipe]: an [$or] of the two
    orderings of the pair. *)
Definition match_between (actor target : string) (m : Match.t) : bool :=
  ((Match.user_a m =? actor) && (Match.user_b m =? target))
  || ((Match.user_a m =? target) && (Match.user_b m =? actor)).

(** [swipe]; [t_swipe] and [t_match] are the readings of [now_utc()] for the
    swipe and for the match. *)
Definition swipe (t_swipe t_match : datetime) (payload : SwipeRequest)
    (user : User.t) : M SwipeResponse :=
  if negb (str_in (action payload) ["like"; "pass"]) then
    raise (HTTPException 400 "Invalid action")
  else
    modify (insert_swipe
              (Swipe.mk (User.id user) (target_id payload) (action payload) t_swipe)) ;;;
    if action payload =? "like" then
      reciprocal <- gets (fun db =>
        find_one (reciprocal_like (User.id user) (target_id payload)) (db_swipe db)) ;;
      match reciprocal with
      | Some _ =>
          exists_ <- gets (fun db =>
            find_one (match_between (User.id user) (target_id payload)) (db_match db)) ;;
          match exists_ with
          | None =>
              modify (insert_match
                        (Match.mk (User.id user) (target_id payload) t_match))
          | Some _ => ret tt
          end ;;;
          ret (mkSwipeResponse true true)
      | None => ret (mkSwipeResponse true false)
      end
    else ret (mkSwipeResponse true false).

(** The database once [swipe] has recorded the swipe. *)
Definition swipe_recorded (t_swipe : datetime) (payload : SwipeRequest)
    (user : User.t) (db : DB) : DB :=
  insert_swipe
    (Swipe.mk (User.id user) (target_id payload) (action payload) t_swipe) db.

(** [discover]: the loop over the cursor appends to [candidates]. *)
Definition discover_step (swiped_ids : str_set) (candidates : list Profile.t)
    (u : User.t) : list Profile.t :=
  let uid := ObjectId.str (User._id u) in
  if negb (set_mem uid swiped_ids)
  then candidates ++ [Profile.of_user u uid]
  else candidates.

Definition discover (user : User.t) : M (list Profile.t) :=
  swiped <- gets (fun db =>
    map Swipe.target_id
        (find (fun s => Swipe.user_id s =? User.id user) (db_swipe db))) ;;
  let swiped_ids := set_add (User.id user) (set_of swiped) in
  cursor <- gets (fun db => limit 50 (find (fun _ => true) (db_user db))) ;;
  ret (fold_left (discover_step swiped_ids) cursor []).

(** [update_me]: the fields that are not [None] are set. *)
Definition updates_empty (update : ProfileUpdate) : bool :=
  match upd_name update, upd_gender update, upd_date_of_birth update,
        upd_location update, upd_bio update, upd_interests update,
        upd_photos update with
  | None, None, None, None, None, None, None => true
  | _, _, _, _, _, _, _ => false
  end.

Definition or_else {A} (new : option A) (old : A) : A :=
  match new with Some v => v | None => old end.

Definition or_keep {A} (new old : option A) : option A :=
  match new with Some v => Some v | None => old end.

Definition set_fields (update : ProfileUpdate) (now : datetime) (u : User.t)
  : User.t :=
  User.mk (User._id u)
    (or_else (upd_name update) (User.name u))
    (User.email u) (User.password_hash u) (User.is_active u)
    (or_keep (upd_gender update) (User.gender u))
    (or_keep (upd_date_of_birth update) (User.date_of_birth u))
    (or_keep (upd_location update) (User.location u))
    (or_keep (upd_bio update) (User.bio u))
    (or_else (upd_interests update) (User.interests u))
    (or_else (upd_photos update) (User.photos u))
    (User.created_at u) now.

Definition update_me (now : datetime) (update : ProfileUpdate) (user : User.t)
  : M bool :=
  if updates_empty update then ret false
  else
    match ObjectId.of_str (User.id user) with
    | None => raise (InvalidId (User.id user))
    | Some oid =>
        modify (update_user (fun u => ObjectId.eqb (User._id u) oid)
                            (set_fields update now)) ;;;
        ret true
    end.

(** The user document as [get_me] returns it: without the keys
    ["password_hash"] and ["_id"], with the key ["id"]. *)
Module Me.
Record t := mk {
  id : string;
  name : string;
  email : string;
  is_active : bool;
  gender : option string;
  date_of_birth : option string;
  location : option string;
  bio : option string;
  interests : list string;
  photos : list string;
  created_at : datetime;
  updated_at : datetime }.

Definition of_user (u : User.t) : t :=
  mk (User.id u) (User.name u) (User.email u) (User.is_active u)
     (User.gender u) (User.date_of_birth u) (User.location u) (User.bio u)
     (User.interests u) (User.photos u) (User.created_at u)
     (User.updated_at u).
End Me.


(** The query of [matches]:
    [{"$or": [{"user_a": uid}, {"user_b": uid}]}]. *)
Definition involves (uid : string) (m : Match.t) : bool :=
  (Match.user_a m =? uid) || (Match.user_b m =? uid).

(** [m["user_b"] if m["user_a"] == uid else m["user_a"]] *)
Definition partner_of (uid : string) (m : Match.t) : string :=
  if Match.user_a m =? uid then Match.user_b m else Match.user_a m.

(** The loop of [matches] over [partner_ids]: one lookup for each id, a
    user that is found being appended to [partners]. *)
Fixpoint matches_loop (partner_ids : list string) (partners : list Profile.t)
  : M (list Profile.t) :=
  match partner_ids with
  | [] => ret partners
  | pid :: rest =>
      match ObjectId.of_str pid with
      | None => raise (InvalidId pid)
      | Some oid =>
          u <- gets (fun db =>
                 find_one (fun u => ObjectId.eqb (User._id u) oid) (db_user db)) ;;
          match u with
          | Some u =>
              matches_loop rest
                (partners ++ [Profile.of_user u (ObjectId.str (User._id u))])
          | None => matches_loop rest partners
          end
      end
  end.

(** [matches] *)
Definition matches (user : User.t) : M (list Profile.t) :=
  ms <- gets (fun db => find (involves (User.id user)) (db_match db)) ;;
  let partner_ids := map (partner_of (User.id user)) ms in
  matches_loop partner_ids [].

(** [public_profile] *)
Definition public_profile (user_id : string) : M Profile.t :=
  match ObjectId.of_str user_id with
  | None => raise (InvalidId user_id)
  | Some oid =>
      u <- gets (fun db =>
             find_one (fun u => ObjectId.eqb (User._id u) oid) (db_user db)) ;;
      match u with
      | None => raise (HTTPException 404 "User not found")
      | Some u => ret (Profile.of_user u (ObjectId.str (User._id u)))
      end
  end.


(** The rest is stated for any password hash. *)
Section Service.

(** [hash_password]: [hashlib.sha256(password.encode()).hexdigest()] *)
Variable hash_password : string -> string.

(** [signup]; [oid] is the [_id] the store gives the new document,
    [t_created] and [t_updated] the two readings of [now_utc()]. *)
Definition signup (oid : ObjectId.t) (t_created t_updated : datetime)
    (payload : SignupRequest) : M SignupResponse :=
  let email := lower (signup_email payload) in
  existing <- gets (fun db =>
    find_one (fun u => User.email u =? email) (db_user db)) ;;
  match existing with
  | Some _ => raise (HTTPException 400 "Email already registered")
  | None =>
      modify (insert_user
        (User.mk oid (signup_name payload) email
                 (hash_password (signup_password payload))
                 true None None None None [] [] t_created t_updated)) ;;;
      ret (mkSignupResponse (ObjectId.str oid) email (signup_name payload))
  end.

(** [login]; [token] is the draw of [secrets.token_urlsafe(32)]. *)
Definition login (token : string) (now : datetime) (payload : LoginRequest)
  : M LoginResponse :=
  let email := lower (login_email payload) in
  user <- gets (fun db =>
    find_one (fun u => User.email u =? email) (db_user db)) ;;
  match user with
  | None => raise (HTTPException 401 "Invalid credentials")
  | Some user =>
      if negb (User.password_hash user =? hash_password (login_password payload))
      then raise (HTTPException 401 "Invalid credentials")
      else
        let expires := (now + seven_days)%Z in
        modify (insert_session (Session.mk (User.id user) token expires)) ;;;
        ret (mkLoginResponse token
               (mkSignupResponse (User.id user) (User.name user)
                                 (User.email user)))
  end.

(** ** The service as a transition system *)

(** The requests that can change the database, each with the values its
    handler draws from the environment.  The other routes ([GET /],
    [/test], [/me], [/matches], [/profile/{id}]) only read. *)
Inductive Request :=
| POST_auth_signup (oid : ObjectId.t) (t_created t_updated : datetime)
    (payload : SignupRequest)
| POST_auth_login (token : string) (now : datetime) (payload : LoginRequest)
| PUT_me (t_auth : datetime) (authorization : option string) (now : datetime)
    (update : ProfileUpdate)
| GET_discover (t_auth : datetime) (authorization : option string)
| POST_swipe (t_auth : datetime) (authorization : option string)
    (t_swipe t_match : datetime) (payload : SwipeRequest).

(** A request is served by its handler behind [Depends(get_current_user)]. *)
Definition serve (r : Request) : M unit :=
  match r with
  | POST_auth_signup oid t1 t2 payload =>
      signup oid t1 t2 payload ;;; ret tt
  | POST_auth_login token now payload =>
      login token now payload ;;; ret tt
  | PUT_me t_auth authorization now update =>
      user <- get_current_user t_auth authorization ;;
      update_me now update user ;;; ret tt
  | GET_discover t_auth authorization =>
      user <- get_current_user t_auth authorization ;;
      discover user ;;; ret tt
  | POST_swipe t_auth authorization t1 t2 payload =>
      user <- get_current_user t_auth authorization ;;
      swipe t1 t2 payload user ;;; ret tt
  end.

(** What the environment guarantees of the values it supplies: the store
    prints a new [_id] in canonical form, and [token_urlsafe] never draws
    the empty string. *)
Definition env_ok (r : Request) : bool :=
  match r with
  | POST_auth_signup oid _ _ _ => ObjectId.canonical oid
  | POST_auth_login token _ _ => negb (token =? "")
  | _ => true
  end.

(** The databases the service reaches from the empty one, request after
    request. *)
Inductive reachable : DB -> Prop :=
| reachable_empty : reachable empty_db
| reachable_serve (db : DB) (r : Request) :
    reachable db -> env_ok r = true -> reachable (fst (serve r db)).

(** One request served in [db], seen from the store: nothing written, or
    the writes of one handler, [update_me] and [swipe] running for a stored
    user, the one [get_current_user] returned. *)
Inductive served (db : DB) : DB -> Prop :=
| served_nothing : served db db
| served_signup (oid : ObjectId.t) (t_created t_updated : datetime)
    (payload : SignupRequest) :
    ObjectId.canonical oid = true ->
    served db (fst (signup oid t_created t_updated payload db))
| served_login (token : string) (now : datetime) (payload : LoginRequest) :
    token <> "" -> served db (fst (login token now payload db))
| served_update_me (now : datetime) (update : ProfileUpdate) (user : User.t) :
    In user (db_user db) -> served db (fst (update_me now update user db))
| served_swipe (t_swipe t_match : datetime) (payload : SwipeRequest)
    (user : User.t) :
    In user (db_user db) -> served db (fst (swipe t_swipe t_match payload user db)).

(** The database after a list of requests, served in order. *)
Definition run (requests : list Request) (db : DB) : DB :=
  fold_left (fun db r => fst (serve r db)) requests db.

(** [swipe] invoked once for each pair of clock readings, in sequence. *)
Fixpoint swipe_many (clock : list (datetime * datetime))
    (payload : SwipeRequest) (user : User.t) : M (list SwipeResponse) :=
  match clock with
  | [] => ret []
  | (t_swipe, t_match) :: rest =>
      r <- swipe t_swipe t_match payload user ;;
      rs <- swipe_many rest payload user ;;
      ret (r :: rs)
  end.

(** ** What the specification says of [discover] *)

(** The exclusion set of a requester: the requester and every target of
    one of the requester's swipes. *)
Definition excluded (db : DB) (requester : string) (uid : string) : bool :=
  (uid =? requester)
  || existsb (fun s => (Swipe.user_id s =? requester) && (Swipe.target_id s =? uid))
             (db_swipe db).

(** The first 50 stored users with the exclusion set removed. *)
Definition discover_spec (db : DB) (user : User.t) : list Profile.t :=
  map (fun u => Profile.of_user u (User.id u))
      (filter (fun u => negb (excluded db (User.id user) (User.id u)))
              (firstn 50 (db_user db))).

(** The Match records of the unordered pair [{a, b}]. *)
Definition matches_of (a b : string) (db : DB) : list Match.t :=
  filter (match_between a b) (db_match db).

(** The ledger holds a like from [actor] to [target]. *)
Definition has_like (actor target : string) (db : DB) : bool :=
  existsb (fun s => (Swipe.user_id s =? actor) && (Swipe.target_id s =? target)
                    && (Swipe.action s =? "like"))
          (db_swipe db).

(** ** Invariants of the reachable databases *)

(** At most one Match record for each unordered pair. *)
Definition match_unique (db : DB) : Prop :=
  forall a b, List.length (matches_of a b db) <= 1.

(** Every Match record is backed by a like in each direction. *)
Definition match_backed (db : DB) : Prop :=
  forall m, In m (db_match db) ->
    has_like (Match.user_a m) (Match.user_b m) db = true
    /\ has_like (Match.user_b m) (Match.user_a m) db = true.

(** Every mutual like has its Match record. *)
Definition mutual_matched (db : DB) : Prop :=
  forall a b, has_like a b db = true -> has_like b a db = true ->
    matches_of a b db <> [].

(** Every stored user has an [_id] in canonical form. *)
Definition users_canonical (db : DB) : Prop :=
  forall u, In u (db_user db) -> ObjectId.canonical (User._id u) = true.

(** Every session has a non-empty token and belongs to a stored user. *)
Definition sessions_owned (db : DB) : Prop :=
  forall s, In s (db_session db) ->
    Session.token s <> ""
    /\ exists u, In u (db_user db) /\ Session.user_id s = User.id u.

Record invariant (db : DB) : Prop := mkInvariant {
  inv_match_unique : match_unique db;
  inv_match_backed : match_backed db;
  inv_mutual_matched : mutual_matched db;
  inv_users_canonical : users_canonical db;
  inv_sessions_owned : sessions_owned db }.

(** ** More invariants of the reachable databases *)


(** [uid] is the id of a stored user. *)
Definition registered (db : DB) (uid : string) : Prop :=
  exists u, In u (db_user db) /\ User.id u = uid.

(** The actor of every swipe and the two parties of every Match are stored
    users. *)
Definition ledger_owned (db : DB) : Prop :=
  (forall s, In s (db_swipe db) -> registered db (Swipe.user_id s))
  /\ (forall m, In m (db_match db) ->
        registered db (Match.user_a m) /\ registered db (Match.user_b m)).

(** What no request changes of a stored user. *)
Definition account (u : User.t) : ObjectId.t * string * string * datetime :=
  (User._id u, User.email u, User.password_hash u, User.created_at u).

(** [db'] holds all that [db] holds: the same accounts in the same order and
    maybe more, and the sessions, swipes and Match records of [db] followed
    by maybe more. *)
Definition grows (db db' : DB) : Prop :=
  (exists more, map account (db_user db') = (map account (db_user db) ++ more)%list)
  /\ (exists more, db_session db' = (db_session db ++ more)%list)
  /\ (exists more, db_swipe db' = (db_swipe db ++ more)%list)
  /\ (exists more, db_match db' = (db_match db ++ more)%list).

(** ** A database with more users than one scan reads *)

Definition hex_digit (n : nat) : ascii :=
  nth n ["0"; "1"; "2"; "3"; "4"; "5"; "6"; "7"; "8"; "9";
         "a"; "b"; "c"; "d"; "e"; "f"]%char "0"%char.

Definition sample_oid (n : nat) : ObjectId.t :=
  ObjectId.mk ("0000000000000000000000"
               ++ String (hex_digit (n / 16)) (String (hex_digit (n mod 16)) "")).

Definition sample_user (n : nat) : User.t :=
  User.mk (sample_oid n) "user"
          ("user" ++ String (hex_digit (n / 16)) (String (hex_digit (n mod 16)) "@x.com"))
          "" true None None None None [] [] 0%Z 0%Z.

(** 51 users, no swipe yet. *)
Definition crowd : DB := mkDB (map sample_user (seq 0 51)) [] [] [].

(** * Properties *)

(** ** Running a handler *)

Ltac run_handler :=
  unfold bind, gets, modify, ret, raise; cbv beta; cbn [fst snd].

Lemma str_in_like_pass (a : string) :
  str_in a ["like"; "pass"] = (a =? "like") || (a =? "pass").
Proof.
  unfold str_in; cbn [existsb].
  rewrite orb_false_r, (String.eqb_sym a "like"), (String.eqb_sym a "pass").
  reflexivity.
Qed.

(** [swipe] with action [like], one store operation after the other. *)
Lemma swipe_like (t_swipe t_match : datetime) (target : string) (user : User.t)
    (db : DB) :
  let actor := User.id user in
  let db1 := insert_swipe (Swipe.mk actor target "like" t_swipe) db in
  swipe t_swipe t_match (mkSwipeRequest target "like") user db =
  match find_one (reciprocal_like actor target) (db_swipe db1) with
  | Some _ =>
      (match find_one (match_between actor target) (db_match db1) with
       | None => insert_match (Match.mk actor target t_match) db1
       | Some _ => db1
       end, Return (mkSwipeResponse true true))
  | None => (db1, Return (mkSwipeResponse true false))
  end.
Proof.
  cbv zeta; unfold swipe; cbn [action target_id].
  change (str_in "like" ["like"; "pass"]) with true; cbn [negb].
  change ("like" =? "like") with true; cbv iota.
  run_handler.
  destruct (find_one (reciprocal_like _ _) _); [|reflexivity].
  cbv beta.
  destruct (find_one (match_between _ _) _); reflexivity.
Qed.

(** [swipe] with action [pass]: the swipe is recorded and nothing else. *)
Lemma swipe_pass (t_swipe t_match : datetime) (target : string) (user : User.t)
    (db : DB) :
  swipe t_swipe t_match (mkSwipeRequest target "pass") user db =
  (insert_swipe (Swipe.mk (User.id user) target "pass" t_swipe) db,
   Return (mkSwipeResponse true false)).
Proof. reflexivity. Qed.

Lemma find_one_app {A} (q : A -> bool) (l1 l2 : list A) :
  find_one q (l1 ++ l2) =
  match find_one q l1 with Some x => Some x | None => find_one q l2 end.
Proof.
  unfold find_one; induction l1 as [|x l1 IH]; cbn; [reflexivity|].
  destruct (q x); auto.
Qed.

Lemma find_one_none_iff {A} (q : A -> bool) (l : list A) :
  find_one q l = None <-> existsb q l = false.
Proof.
  unfold find_one; induction l as [|x l IH]; cbn; [tauto|].
  destruct (q x); cbn; [split; discriminate | exact IH].
Qed.

Lemma find_one_some_iff {A} (q : A -> bool) (l : list A) :
  (exists x, find_one q l = Some x) <-> existsb q l = true.
Proof.
  destruct (find_one q l) eqn:E.
  - split; [intros _|eauto].
    destruct (existsb q l) eqn:F; [reflexivity|].
    apply find_one_none_iff in F; congruence.
  - apply find_one_none_iff in E; rewrite E.
    split; [intros [x Hx]; discriminate | discriminate].
Qed.

Lemma reciprocal_like_has_like (actor target : string) (db : DB) :
  existsb (reciprocal_like actor target) (db_swipe db) = has_like target actor db.
Proof. reflexivity. Qed.

(** [swipe] with any other action: the request is rejected before the
    store is touched. *)
Lemma swipe_invalid (t_swipe t_match : datetime) (payload : SwipeRequest)
    (user : User.t) (db : DB) :
  action payload <> "like" -> action payload <> "pass" ->
  swipe t_swipe t_match payload user db =
  (db, Raise (HTTPException 400 "Invalid action")).
Proof.
  intros Hl Hp. unfold swipe. rewrite str_in_like_pass.
  apply String.eqb_neq in Hl, Hp. rewrite Hl, Hp. reflexivity.
Qed.

(** ** The state and the response of [swipe] in closed form *)

Lemma swipe_state (t_swipe t_match : datetime) (payload : SwipeRequest)
    (user : User.t) (db : DB) :
  let actor := User.id user in
  let target := target_id payload in
  let db1 := swipe_recorded t_swipe payload user db in
  fst (swipe t_swipe t_match payload user db) =
  if negb (str_in (action payload) ["like"; "pass"]) then db
  else if (action payload =? "like") && has_like target actor db1
          && negb (existsb (match_between actor target) (db_match db))
       then insert_match (Match.mk actor target t_match) db1
       else db1.
Proof.
  cbv zeta. unfold swipe_recorded.
  destruct payload as [target act]; cbn [action target_id].
  rewrite str_in_like_pass.
  destruct (String.eqb_spec act "like") as [->|Hl].
  - rewrite swipe_like; cbv zeta. cbn [orb negb andb].
    rewrite <- reciprocal_like_has_like.
    destruct (find_one (reciprocal_like _ _) _) eqn:Hr.
    + assert (Hx : existsb (reciprocal_like (User.id user) target)
                (db_swipe (insert_swipe
                   (Swipe.mk (User.id user) target "like" t_swipe) db)) = true)
        by (apply find_one_some_iff; eauto).
      rewrite Hx. cbn [db_match insert_swipe andb].
      destruct (find_one (match_between _ _) _) eqn:Hm.
      * assert (Hy : existsb (match_between (User.id user) target) (db_match db) = true)
          by (apply find_one_some_iff; eauto).
        rewrite Hy. reflexivity.
      * apply find_one_none_iff in Hm. rewrite Hm. reflexivity.
    + apply find_one_none_iff in Hr. rewrite Hr. reflexivity.
  - cbn [orb andb].
    destruct (String.eqb_spec act "pass") as [->|Hp].
    + reflexivity.
    + rewrite swipe_invalid by assumption. reflexivity.
Qed.

Lemma swipe_response (t_swipe t_match : datetime) (payload : SwipeRequest)
    (user : User.t) (db : DB) :
  let actor := User.id user in
  let target := target_id payload in
  let db1 := swipe_recorded t_swipe payload user db in
  snd (swipe t_swipe t_match payload user db) =
  if negb (str_in (action payload) ["like"; "pass"])
  then Raise (HTTPException 400 "Invalid action")
  else Return (mkSwipeResponse true
                 ((action payload =? "like") && has_like target actor db1)).
Proof.
  cbv zeta. unfold swipe_recorded.
  destruct payload as [target act]; cbn [action target_id].
  rewrite str_in_like_pass.
  destruct (String.eqb_spec act "like") as [->|Hl].
  - rewrite swipe_like; cbv zeta. cbn [orb negb andb].
    rewrite <- reciprocal_like_has_like.
    destruct (find_one (reciprocal_like _ _) _) eqn:Hr.
    + assert (Hx : existsb (reciprocal_like (User.id user) target)
                (db_swipe (insert_swipe
                   (Swipe.mk (User.id user) target "like" t_swipe) db)) = true)
        by (apply find_one_some_iff; eauto).
      rewrite Hx. reflexivity.
    + apply find_one_none_iff in Hr. rewrite Hr. reflexivity.
  - cbn [orb andb].
    destruct (String.eqb_spec act "pass") as [->|Hp].
    + reflexivity.
    + rewrite swipe_invalid by assumption. reflexivity.
Qed.

(** ** The two queries on pairs *)

Lemma match_between_sym (a b : string) (m : Match.t) :
  match_between a b m = match_between b a m.
Proof. unfold match_between. apply orb_comm. Qed.

Lemma match_between_true (a b : string) (m : Match.t) :
  match_between a b m = true <->
  (Match.user_a m = a /\ Match.user_b m = b)
  \/ (Match.user_a m = b /\ Match.user_b m = a).
Proof.
  unfold match_between.
  rewrite orb_true_iff, !andb_true_iff, !String.eqb_eq. reflexivity.
Qed.

(** A record of the pair [{a, b}] answers the query of exactly that pair. *)
Lemma match_between_same_pair (a b x y : string) (t : datetime) :
  match_between a b (Match.mk x y t) = true ->
  forall m, match_between a b m = match_between x y m.
Proof.
  intros H m. apply match_between_true in H; cbn in H.
  destruct H as [[-> ->]|[-> ->]]; [reflexivity | apply match_between_sym].
Qed.

Lemma matches_of_insert_match (a b : string) (m : Match.t) (db : DB) :
  matches_of a b (insert_match m db) =
  (matches_of a b db ++ (if match_between a b m then [m] else []))%list.
Proof.
  unfold matches_of, insert_match, insert_one; cbn [db_match].
  rewrite filter_app. reflexivity.
Qed.

Lemma matches_of_nil_iff (a b : string) (db : DB) :
  matches_of a b db = [] <-> existsb (match_between a b) (db_match db) = false.
Proof.
  unfold matches_of. induction (db_match db) as [|m l IH]; cbn; [tauto|].
  destruct (match_between a b m); cbn; [split; discriminate | exact IH].
Qed.

Lemma matches_of_ext (a b x y : string) (db : DB) :
  (forall m, match_between a b m = match_between x y m) ->
  matches_of a b db = matches_of x y db.
Proof. intros H. unfold matches_of. apply filter_ext. exact H. Qed.

Lemma has_like_insert_swipe (a b : string) (s : Swipe.t) (db : DB) :
  has_like a b (insert_swipe s db) =
  has_like a b db
  || ((Swipe.user_id s =? a) && (Swipe.target_id s =? b) && (Swipe.action s =? "like")).
Proof.
  unfold has_like, insert_swipe, insert_one; cbn [db_swipe].
  rewrite existsb_app; cbn [existsb]. rewrite orb_false_r. reflexivity.
Qed.

Lemma has_like_mono (a b : string) (s : Swipe.t) (db : DB) :
  has_like a b db = true -> has_like a b (insert_swipe s db) = true.
Proof. intros H. rewrite has_like_insert_swipe, H. reflexivity. Qed.

(** ** [swipe] keeps the invariants *)

Lemma insert_swipe_match_unique (s : Swipe.t) (db : DB) :
  match_unique db -> match_unique (insert_swipe s db).
Proof. intros H a b. exact (H a b). Qed.

Lemma insert_swipe_match_backed (s : Swipe.t) (db : DB) :
  match_backed db -> match_backed (insert_swipe s db).
Proof.
  intros H m Hm. destruct (H m Hm) as [H1 H2].
  split; apply has_like_mono; assumption.
Qed.

Lemma insert_match_match_unique (x y : string) (t : datetime) (db : DB) :
  existsb (match_between x y) (db_match db) = false ->
  match_unique db -> match_unique (insert_match (Match.mk x y t) db).
Proof.
  intros Hnone H a b. rewrite matches_of_insert_match.
  destruct (match_between a b (Match.mk x y t)) eqn:E.
  - rewrite (matches_of_ext a b x y db (match_between_same_pair _ _ _ _ _ E)).
    apply matches_of_nil_iff in Hnone. rewrite Hnone. cbn. lia.
  - rewrite app_nil_r. apply H.
Qed.

Lemma insert_match_match_backed (x y : string) (t : datetime) (db : DB) :
  has_like x y db = true -> has_like y x db = true ->
  match_backed db -> match_backed (insert_match (Match.mk x y t) db).
Proof.
  intros Hxy Hyx H m Hm. unfold insert_match, insert_one in Hm; cbn in Hm.
  apply in_app_or in Hm. destruct Hm as [Hm|[<-|[]]].
  - exact (H m Hm).
  - cbn. split; assumption.
Qed.

Lemma swipe_match_unique (t_swipe t_match : datetime) (payload : SwipeRequest)
    (user : User.t) (db : DB) :
  match_unique db -> match_unique (fst (swipe t_swipe t_match payload user db)).
Proof.
  intros H. rewrite swipe_state; cbv zeta.
  destruct (negb _); [exact H|].
  destruct (_ && _ && _) eqn:E.
  - apply andb_true_iff in E. destruct E as [_ E].
    apply negb_true_iff in E.
    apply insert_match_match_unique; [exact E|].
    apply insert_swipe_match_unique, H.
  - apply insert_swipe_match_unique, H.
Qed.

Lemma swipe_match_backed (t_swipe t_match : datetime) (payload : SwipeRequest)
    (user : User.t) (db : DB) :
  match_backed db -> match_backed (fst (swipe t_swipe t_match payload user db)).
Proof.
  intros H. rewrite swipe_state; cbv zeta.
  destruct (negb _); [exact H|].
  destruct (_ && _ && _) eqn:E.
  - apply andb_true_iff in E. destruct E as [E _].
    apply andb_true_iff in E. destruct E as [Ea Er].
    apply String.eqb_eq in Ea.
    apply insert_match_match_backed; [|exact Er|apply insert_swipe_match_backed, H].
    unfold swipe_recorded. rewrite has_like_insert_swipe. cbn.
    rewrite Ea, !String.eqb_refl. apply orb_true_r.
  - apply insert_swipe_match_backed, H.
Qed.

Lemma swipe_db_user (t_swipe t_match : datetime) (payload : SwipeRequest)
    (user : User.t) (db : DB) :
  db_user (fst (swipe t_swipe t_match payload user db)) = db_user db.
Proof.
  rewrite swipe_state; cbv zeta.
  destruct (negb _); [reflexivity|]. destruct (_ && _ && _); reflexivity.
Qed.

Lemma swipe_db_session (t_swipe t_match : datetime) (payload : SwipeRequest)
    (user : User.t) (db : DB) :
  db_session (fst (swipe t_swipe t_match payload user db)) = db_session db.
Proof.
  rewrite swipe_state; cbv zeta.
  destruct (negb _); [reflexivity|]. destruct (_ && _ && _); reflexivity.
Qed.

Lemma swipe_mutual_matched (t_swipe t_match : datetime) (payload : SwipeRequest)
    (user : User.t) (db : DB) :
  mutual_matched db ->
  mutual_matched (fst (swipe t_swipe t_match payload user db)).
Proof.
  intros H. rewrite swipe_state; cbv zeta.
  destruct (negb _); [exact H|].
  set (actor := User.id user). set (target := target_id payload).
  set (db1 := swipe_recorded t_swipe payload user db).
  (* a mutual like of [db1] is an old one, or it is the pair of this swipe *)
  assert (Hnew : forall a b, has_like a b db1 = true -> has_like b a db1 = true ->
            (has_like a b db = true /\ has_like b a db = true)
            \/ (action payload = "like" /\ has_like target actor db1 = true
                /\ forall m, match_between a b m = match_between actor target m)).
  { intros a b Hab Hba.
    destruct (has_like a b db) eqn:Eab, (has_like b a db) eqn:Eba; [left; auto| | |].
    all: right.
    all: pose proof Hab as Hab'; pose proof Hba as Hba'.
    all: unfold db1, swipe_recorded in Hab', Hba'.
    all: rewrite has_like_insert_swipe in Hab', Hba'; cbn in Hab', Hba'.
    all: rewrite Eab in Hab'; rewrite Eba in Hba'; cbn [orb] in Hab', Hba'.
    - (* the new like is b -> a *)
      apply andb_true_iff in Hba'. destruct Hba' as [Hba' Hl].
      apply andb_true_iff in Hba'. destruct Hba' as [H1 H2].
      apply String.eqb_eq in H1, H2, Hl.
      fold actor in H1. fold target in H2. subst a b.
      repeat split; [exact Hl|exact Hab|]. intros m; apply match_between_sym.
    - (* the new like is a -> b *)
      apply andb_true_iff in Hab'. destruct Hab' as [Hab' Hl].
      apply andb_true_iff in Hab'. destruct Hab' as [H1 H2].
      apply String.eqb_eq in H1, H2, Hl.
      fold actor in H1. fold target in H2. subst a b.
      repeat split; [exact Hl|exact Hba].
    - apply andb_true_iff in Hab'. destruct Hab' as [Hab' Hl].
      apply andb_true_iff in Hab'. destruct Hab' as [H1 H2].
      apply String.eqb_eq in H1, H2, Hl.
      fold actor in H1. fold target in H2. subst a b.
      repeat split; [exact Hl|exact Hba]. }
  destruct (_ && _ && _) eqn:E.
  - intros a b Hab Hba. rewrite matches_of_insert_match.
    destruct (Hnew a b Hab Hba) as [[Ha Hb]|(Hl & Hr & Hq)].
    + specialize (H a b Ha Hb).
      intros Hx. apply app_eq_nil in Hx. destruct Hx as [Hx _]. exact (H Hx).
    + rewrite Hq. unfold match_between at 1; cbn.
      rewrite !String.eqb_refl. cbn.
      intros Hx. apply app_eq_nil in Hx. destruct Hx as [_ Hx]. discriminate Hx.
  - intros a b Hab Hba.
    change (matches_of a b db1) with (matches_of a b db).
    destruct (Hnew a b Hab Hba) as [[Ha Hb]|(Hl & Hr & Hq)].
    + exact (H a b Ha Hb).
    + rewrite Hl, Hr in E. cbn in E. apply negb_false_iff in E.
      rewrite (matches_of_ext _ _ _ _ db Hq). intros Hnil.
      apply matches_of_nil_iff in Hnil. congruence.
Qed.

Lemma swipe_invariant (t_swipe t_match : datetime) (payload : SwipeRequest)
    (user : User.t) (db : DB) :
  invariant db -> invariant (fst (swipe t_swipe t_match payload user db)).
Proof.
  intros [H1 H2 H3 H4 H5]. split.
  - apply swipe_match_unique, H1.
  - apply swipe_match_backed, H2.
  - apply swipe_mutual_matched, H3.
  - unfold users_canonical. rewrite swipe_db_user. exact H4.
  - unfold sessions_owned. rewrite swipe_db_session, swipe_db_user. exact H5.
Qed.

(** ** The other handlers keep the invariants *)

Lemma get_current_user_state (now : datetime) (authorization : option string)
    (db : DB) :
  fst (get_current_user now authorization db) = db.
Proof.
  unfold get_current_user. destruct authorization as [[|c s]|]; try reflexivity.
  run_handler. destruct (find_one _ _) as [session|]; [|reflexivity].
  destruct (ObjectId.of_str _) as [oid|]; [|reflexivity].
  cbv beta. destruct (find_one _ _); reflexivity.
Qed.

(** The invariants on the ledger and the Match set do not look at the
    users and the sessions. *)
Lemma invariant_same_ledger (db db' : DB) :
  db_swipe db' = db_swipe db -> db_match db' = db_match db ->
  users_canonical db' -> sessions_owned db' ->
  invariant db -> invariant db'.
Proof.
  destruct db as [us ss sw ms], db' as [us' ss' sw' ms']; cbn.
  intros -> -> Hu Hs [H1 H2 H3 _ _]. split; assumption.
Qed.

Lemma signup_invariant (oid : ObjectId.t) (t_created t_updated : datetime)
    (payload : SignupRequest) (db : DB) :
  ObjectId.canonical oid = true ->
  invariant db ->
  invariant (fst (signup oid t_created t_updated payload db)).
Proof.
  intros Hoid Hinv. unfold signup. run_handler.
  destruct (find_one _ _); [exact Hinv|]. cbn [fst].
  apply (invariant_same_ledger db); try reflexivity; try assumption.
  - intros u Hu. unfold insert_user, insert_one in Hu; cbn in Hu.
    apply in_app_or in Hu. destruct Hu as [Hu|[<-|[]]].
    + exact (inv_users_canonical db Hinv u Hu).
    + exact Hoid.
  - intros s Hs. destruct (inv_sessions_owned db Hinv s Hs) as [Ht (u & Hu & Hid)].
    split; [exact Ht|]. exists u. split; [|exact Hid].
    unfold insert_user, insert_one; cbn. apply in_or_app. left; exact Hu.
Qed.

Lemma login_invariant (token : string) (now : datetime) (payload : LoginRequest)
    (db : DB) :
  token <> "" ->
  invariant db ->
  invariant (fst (login token now payload db)).
Proof.
  intros Htok Hinv. unfold login. run_handler.
  destruct (find_one _ _) as [user|] eqn:Hfind; [|exact Hinv].
  destruct (negb _); [exact Hinv|]. cbn [fst].
  apply (invariant_same_ledger db); try reflexivity; try assumption.
  - exact (inv_users_canonical db Hinv).
  - intros s Hs. unfold insert_session, insert_one in Hs; cbn in Hs.
    apply in_app_or in Hs. destruct Hs as [Hs|[<-|[]]].
    + exact (inv_sessions_owned db Hinv s Hs).
    + cbn. split; [exact Htok|]. exists user. split; [|reflexivity].
      apply find_some in Hfind. exact (proj1 Hfind).
Qed.

Lemma update_one_in {A} (q : A -> bool) (f : A -> A) (coll : list A) (x : A) :
  In x (update_one q f coll) -> In x coll \/ exists y, In y coll /\ x = f y.
Proof.
  induction coll as [|d rest IH]; cbn; [tauto|].
  destruct (q d); cbn.
  - intros [<-|H]; [right; exists d; auto | left; auto].
  - intros [<-|H]; [left; auto|].
    destruct (IH H) as [H'|(y & Hy & ->)]; [left; auto | right; exists y; auto].
Qed.

Lemma update_one_keeps {A} (q : A -> bool) (f : A -> A) (coll : list A) (x : A) :
  In x coll -> In x (update_one q f coll) \/ In (f x) (update_one q f coll).
Proof.
  induction coll as [|d rest IH]; cbn; [tauto|].
  destruct (q d); cbn.
  - intros [<-|H]; [right; auto | left; auto].
  - intros [<-|H]; [left; auto|].
    destruct (IH H); [left; auto | right; auto].
Qed.

Lemma update_me_invariant (now : datetime) (update : ProfileUpdate)
    (user : User.t) (db : DB) :
  invariant db -> invariant (fst (update_me now update user db)).
Proof.
  intros Hinv. unfold update_me.
  destruct (updates_empty update); [exact Hinv|].
  destruct (ObjectId.of_str _) as [oid|]; [|exact Hinv].
  run_handler.
  apply (invariant_same_ledger db); try reflexivity; try assumption.
  - intros u Hu. unfold update_user in Hu; cbn in Hu.
    apply update_one_in in Hu. destruct Hu as [Hu|(y & Hy & ->)].
    + exact (inv_users_canonical db Hinv u Hu).
    + exact (inv_users_canonical db Hinv y Hy).
  - intros s Hs. destruct (inv_sessions_owned db Hinv s Hs) as [Ht (u & Hu & Hid)].
    split; [exact Ht|]. unfold update_user; cbn.
    destruct (update_one_keeps (fun u0 => ObjectId.eqb (User._id u0) oid)
                (set_fields update now) _ _ Hu) as [H|H].
    + exists u; auto.
    + exists (set_fields update now u); auto.
Qed.

Lemma empty_invariant : invariant empty_db.
Proof.
  split.
  - intros a b; cbn; lia.
  - intros m [].
  - intros a b H; discriminate H.
  - intros u [].
  - intros s [].
Qed.

Lemma serve_invariant (r : Request) (db : DB) :
  env_ok r = true -> invariant db -> invariant (fst (serve r db)).
Proof.
  intros Henv Hinv. destruct r; cbn [serve env_ok] in *.
  - unfold bind at 1.
    pose proof (signup_invariant oid t_created t_updated payload db Henv Hinv) as H.
    destruct (signup _ _ _ _ db) as [db' [a|e]]; exact H.
  - unfold bind at 1.
    apply negb_true_iff, String.eqb_neq in Henv.
    pose proof (login_invariant token now payload db Henv Hinv) as H.
    destruct (login _ _ _ db) as [db' [a|e]]; exact H.
  - unfold bind at 1.
    pose proof (get_current_user_state t_auth authorization db) as Hs.
    destruct (get_current_user _ _ db) as [db' [user|e]]; cbn in Hs; subst db';
      [|exact Hinv].
    unfold bind at 1.
    pose proof (update_me_invariant now update user db Hinv) as H.
    destruct (update_me _ _ _ db) as [db' [a|e]]; exact H.
  - unfold bind at 1.
    pose proof (get_current_user_state t_auth authorization db) as Hs.
    destruct (get_current_user _ _ db) as [db' [user|e]]; cbn in Hs; subst db';
      exact Hinv.
  - unfold bind at 1.
    pose proof (get_current_user_state t_auth authorization db) as Hs.
    destruct (get_current_user _ _ db) as [db' [user|e]]; cbn in Hs; subst db';
      [|exact Hinv].
    unfold bind at 1.
    pose proof (swipe_invariant t_swipe t_match payload user db Hinv) as H.
    destruct (swipe _ _ _ _ db) as [db' [a|e]]; exact H.
Qed.

(** Every reachable database satisfies the invariants. *)
Lemma reachable_invariant (db : DB) : reachable db -> invariant db.
Proof.
  induction 1 as [|db r _ IH Henv]; [exact empty_invariant|].
  apply serve_invariant; assumption.
Qed.

(** ** The ledger *)

Lemma has_like_iff (actor target : string) (db : DB) :
  has_like actor target db = true <->
  exists s, In s (db_swipe db) /\ Swipe.user_id s = actor
            /\ Swipe.target_id s = target /\ Swipe.action s = "like".
Proof.
  unfold has_like. rewrite existsb_exists. split.
  - intros (s & Hs & H). apply andb_true_iff in H. destruct H as [H H3].
    apply andb_true_iff in H. destruct H as [H1 H2].
    apply String.eqb_eq in H1, H2, H3. eauto.
  - intros (s & Hs & H1 & H2 & H3). exists s. split; [exact Hs|].
    rewrite H1, H2, H3, !String.eqb_refl. reflexivity.
Qed.

(** ** Claims on [swipe] *)


(** C2. A swipe with action [pass] answers [{ok: true, match: false}] and
    only appends the swipe: the Match set is left as it was, whatever the
    ledger holds. *)
Theorem swipe_pass_no_match (db : DB) (user : User.t) (target : string)
    (t_swipe t_match : datetime) :
  let r := swipe t_swipe t_match (mkSwipeRequest target "pass") user db in
  snd r = Return (mkSwipeResponse true false)
  /\ db_match (fst r) = db_match db
  /\ db_swipe (fst r) =
     (db_swipe db ++ [Swipe.mk (User.id user) target "pass" t_swipe])%list
  /\ db_user (fst r) = db_user db /\ db_session (fst r) = db_session db.
Proof.
  cbv zeta. rewrite swipe_pass. cbn [fst snd].
  unfold insert_swipe, insert_one; cbn. repeat split.
Qed.

(** C3, as amended.  For distinct A and B: when A swipes like on B and the
    ledger holds no like from B to A, the call answers [match: false] and
    only appends the swipe; no Match record is created. *)
Theorem swipe_one_sided_like (db : DB) (user : User.t) (target : string)
    (t_swipe t_match : datetime) :
  User.id user <> target ->
  has_like target (User.id user) db = false ->
  let r := swipe t_swipe t_match (mkSwipeRequest target "like") user db in
  snd r = Return (mkSwipeResponse true false)
  /\ db_match (fst r) = db_match db
  /\ matches_of (User.id user) target (fst r) = matches_of (User.id user) target db.
Proof.
  intros Hneq Hnone r.
  assert (Hrec : has_like target (User.id user)
            (swipe_recorded t_swipe (mkSwipeRequest target "like") user db) = false).
  { unfold swipe_recorded. rewrite has_like_insert_swipe, Hnone. cbn.
    apply String.eqb_neq in Hneq. rewrite Hneq. reflexivity. }
  assert (Hstate : fst r =
            swipe_recorded t_swipe (mkSwipeRequest target "like") user db).
  { unfold r. rewrite swipe_state; cbv zeta. cbn [action target_id].
    rewrite Hrec. reflexivity. }
  split; [|split].
  - unfold r. rewrite swipe_response; cbv zeta. cbn [action target_id].
    rewrite Hrec. reflexivity.
  - rewrite Hstate. reflexivity.
  - rewrite Hstate. reflexivity.
Qed.

(** C4. A swipe whose action is neither [like] nor [pass] fails with
    [HTTPException(400, "Invalid action")] and leaves the database as it
    was: no Swipe is appended and no Match is created. *)
Theorem swipe_invalid_action (db : DB) (user : User.t) (payload : SwipeRequest)
    (t_swipe t_match : datetime) :
  action payload <> "like" -> action payload <> "pass" ->
  swipe t_swipe t_match payload user db =
  (db, Raise (HTTPException 400 "Invalid action")).
Proof.
  intros Hl Hp. unfold swipe. rewrite str_in_like_pass.
  destruct (String.eqb_spec (action payload) "like") as [E|_]; [contradiction|].
  destruct (String.eqb_spec (action payload) "pass") as [E|_]; [contradiction|].
  reflexivity.
Qed.

(** One more like from A to B over an established mutual like, in a state
    that satisfies the invariants. *)
Lemma swipe_again (db : DB) (user : User.t) (target : string)
    (t_swipe t_match : datetime) :
  invariant db ->
  has_like (User.id user) target db = true ->
  has_like target (User.id user) db = true ->
  swipe t_swipe t_match (mkSwipeRequest target "like") user db =
  (swipe_recorded t_swipe (mkSwipeRequest target "like") user db,
   Return (mkSwipeResponse true true)).
Proof.
  intros Hinv Hab Hba.
  assert (Hrec : has_like target (User.id user)
            (swipe_recorded t_swipe (mkSwipeRequest target "like") user db) = true)
    by (apply has_like_mono; exact Hba).
  rewrite (surjective_pairing (swipe _ _ _ _ _)).
  rewrite swipe_state, swipe_response; cbv zeta. cbn [action target_id].
  change (str_in "like" ["like"; "pass"]) with true.
  change ("like" =? "like") with true. cbn [negb andb].
  rewrite Hrec. cbn [andb].
  destruct (existsb _ _) eqn:E; [reflexivity|].
  apply matches_of_nil_iff in E.
  destruct (inv_mutual_matched db Hinv _ _ Hab Hba E).
Qed.

Lemma swipe_many_again (clock : list (datetime * datetime)) (db : DB)
    (user : User.t) (target : string) :
  invariant db ->
  has_like (User.id user) target db = true ->
  has_like target (User.id user) db = true ->
  swipe_many clock (mkSwipeRequest target "like") user db =
  (mkDB (db_user db) (db_session db)
        (db_swipe db ++
         map (fun ts => Swipe.mk (User.id user) target "like" (fst ts)) clock)
        (db_match db),
   Return (map (fun _ => mkSwipeResponse true true) clock)).
Proof.
  revert db. induction clock as [|[t1 t2] clock IH]; intros db Hinv Hab Hba.
  - cbn. rewrite app_nil_r. destruct db; reflexivity.
  - cbn [swipe_many]. unfold bind.
    rewrite (swipe_again db user target t1 t2 Hinv Hab Hba).
    set (db1 := swipe_recorded t1 (mkSwipeRequest target "like") user db).
    assert (Hinv1 : invariant db1).
    { pose proof (swipe_invariant t1 t2 (mkSwipeRequest target "like") user db Hinv) as H.
      rewrite (swipe_again db user target t1 t2 Hinv Hab Hba) in H. exact H. }
    rewrite (IH db1 Hinv1 (has_like_mono _ _ _ _ Hab) (has_like_mono _ _ _ _ Hba)).
    unfold ret, db1, swipe_recorded, insert_swipe, insert_one.
    cbn [db_user db_session db_swipe db_match action target_id map fst].
    rewrite <- app_assoc. reflexivity.
Qed.

(** C8. With a mutual like between A and B established (in a database the
    service can reach), invoking [swipe] with (A, B, like) once for each
    entry of [clock], in sequence: every call answers [match: true]; every
    call appends one more Swipe record, nothing being deduplicated; and no
    call adds a Match record, the pair [{A, B}] keeping exactly one. *)
Theorem swipe_repeated_like (clock : list (datetime * datetime)) (db : DB)
    (user : User.t) (target : string) :
  reachable db ->
  has_like (User.id user) target db = true ->
  has_like target (User.id user) db = true ->
  let actor := User.id user in
  let r := swipe_many clock (mkSwipeRequest target "like") user db in
  snd r = Return (map (fun _ => mkSwipeResponse true true) clock)
  /\ db_swipe (fst r) =
     (db_swipe db ++
      map (fun ts => Swipe.mk actor target "like" (fst ts)) clock)%list
  /\ List.length (db_swipe (fst r)) = List.length (db_swipe db) + List.length clock
  /\ db_match (fst r) = db_match db
  /\ List.length (matches_of actor target (fst r)) = 1.
Proof.
  intros Hreach Hab Hba actor r.
  pose proof (reachable_invariant db Hreach) as Hinv.
  pose proof (swipe_many_again clock db user target Hinv Hab Hba) as Hrun.
  fold r actor in Hrun. rewrite Hrun. cbn [fst snd db_swipe db_match].
  repeat split.
  - rewrite length_app, length_map. reflexivity.
  - change (List.length (matches_of actor target db) = 1).
    pose proof (inv_match_unique db Hinv actor target) as Hle.
    pose proof (inv_mutual_matched db Hinv actor target Hab Hba) as Hne.
    destruct (matches_of actor target db) as [|m [|m' l]]; cbn in *;
      [congruence | reflexivity | lia].
Qed.

(** C9, as amended.  A single swipe of a user A on A's own id with action
    [like] answers [match: true] at once, and a Match record with
    [user_a = user_b = A] is in the Match set afterwards: the reciprocal
    query runs on the ledger that already has the swipe just appended, and
    so finds a record.  The call creates [Match(A, A)] unless such a record
    is there already, and then the Match set is left as it was.  When A has
    not liked A before (in a database the service can reach), the record the
    query finds is the swipe just inserted and [Match(A, A)] is created. *)
Theorem swipe_self_like (db : DB) (user : User.t) (t_swipe t_match : datetime) :
  let actor := User.id user in
  let recorded := Swipe.mk actor actor "like" t_swipe in
  let r := swipe t_swipe t_match (mkSwipeRequest actor "like") user db in
  snd r = Return (mkSwipeResponse true true)
  /\ db_swipe (fst r) = (db_swipe db ++ [recorded])%list
  /\ (exists s, find_one (reciprocal_like actor actor) (db_swipe db ++ [recorded])
                = Some s)
  /\ (exists m, In m (db_match (fst r))
                /\ Match.user_a m = actor /\ Match.user_b m = actor)
  /\ db_match (fst r) =
     (if existsb (match_between actor actor) (db_match db)
      then db_match db
      else (db_match db ++ [Match.mk actor actor t_match])%list)
  /\ (reachable db -> has_like actor actor db = false ->
      find_one (reciprocal_like actor actor) (db_swipe db ++ [recorded])
      = Some recorded
      /\ db_match (fst r) = (db_match db ++ [Match.mk actor actor t_match])%list).
Proof.
  intros actor recorded r.
  assert (Hrec : has_like actor actor
            (swipe_recorded t_swipe (mkSwipeRequest actor "like") user db) = true).
  { unfold swipe_recorded. rewrite has_like_insert_swipe. cbn. fold actor.
    rewrite !String.eqb_refl. apply orb_true_r. }
  assert (Hstate : fst r =
            if existsb (match_between actor actor) (db_match db)
            then swipe_recorded t_swipe (mkSwipeRequest actor "like") user db
            else insert_match (Match.mk actor actor t_match)
                   (swipe_recorded t_swipe (mkSwipeRequest actor "like") user db)).
  { unfold r. rewrite swipe_state; cbv zeta. cbn [action target_id].
    change (str_in "like" ["like"; "pass"]) with true.
    change ("like" =? "like") with true. cbn [negb andb].
    fold actor. rewrite Hrec. cbn [andb].
    destruct (existsb _ _); reflexivity. }
  assert (Hmatch : db_match (fst r) =
            if existsb (match_between actor actor) (db_match db)
            then db_match db
            else (db_match db ++ [Match.mk actor actor t_match])%list).
  { rewrite Hstate. destruct (existsb _ _); reflexivity. }
  split; [|split; [|split; [|split; [|split]]]].
  - unfold r. rewrite swipe_response; cbv zeta. cbn [action target_id].
    change (str_in "like" ["like"; "pass"]) with true.
    change ("like" =? "like") with true. cbn [negb andb].
    fold actor. rewrite Hrec. reflexivity.
  - rewrite Hstate. destruct (existsb _ _); reflexivity.
  - apply find_one_some_iff. exact Hrec.
  - rewrite Hmatch. destruct (existsb _ _) eqn:E.
    + apply existsb_exists in E. destruct E as (m & Hm & Hq).
      apply match_between_true in Hq. exists m. tauto.
    + exists (Match.mk actor actor t_match). split; [|split; reflexivity].
      apply in_or_app. right. left. reflexivity.
  - exact Hmatch.
  - intros Hreach Hnone.
    pose proof (reachable_invariant db Hreach) as Hinv. split.
    + rewrite find_one_app.
      assert (Hf : find_one (reciprocal_like actor actor) (db_swipe db) = None)
        by (apply find_one_none_iff; exact Hnone).
      rewrite Hf. unfold find_one, recorded, reciprocal_like; cbn.
      rewrite !String.eqb_refl. reflexivity.
    + rewrite Hmatch. destruct (existsb _ _) eqn:E; [|reflexivity].
      apply existsb_exists in E. destruct E as (m & Hm & Hq).
      apply match_between_true in Hq.
      destruct (inv_match_backed db Hinv m Hm) as [Hb _].
      assert (Ha : Match.user_a m = actor /\ Match.user_b m = actor) by tauto.
      destruct Ha as [Ha1 Ha2]. rewrite Ha1, Ha2 in Hb. congruence.
Qed.

(** ** Claims on [discover] *)

(** The Python set built by [discover] has the members of the exclusion
    set. *)
Lemma swiped_ids_excluded (db : DB) (requester uid : string) :
  set_mem uid
    (set_add requester
       (set_of (map Swipe.target_id
                  (find (fun s => Swipe.user_id s =? requester) (db_swipe db)))))
  = excluded db requester uid.
Proof.
  unfold set_mem, set_add, set_of, str_in, excluded, find. cbn [existsb].
  f_equal. induction (db_swipe db) as [|s l IH]; cbn; [reflexivity|].
  destruct (Swipe.user_id s =? requester); cbn.
  - rewrite IH, (String.eqb_sym uid). reflexivity.
  - exact IH.
Qed.

(** The loop of [discover] is a filter that keeps the order. *)
Lemma discover_loop (swiped_ids : str_set) (cursor : list User.t)
    (candidates : list Profile.t) :
  fold_left (discover_step swiped_ids) cursor candidates =
  (candidates ++
   map (fun u => Profile.of_user u (User.id u))
       (filter (fun u => negb (set_mem (User.id u) swiped_ids)) cursor))%list.
Proof.
  revert candidates. induction cursor as [|u cursor IH]; intros candidates.
  - cbn. rewrite app_nil_r. reflexivity.
  - cbn [fold_left filter]. rewrite IH. unfold discover_step.
    change (ObjectId.str (User._id u)) with (User.id u).
    destruct (negb (set_mem (User.id u) swiped_ids)); cbn [map].
    + rewrite <- app_assoc. reflexivity.
    + reflexivity.
Qed.

Lemma find_all {A} (l : list A) : find (fun _ => true) l = l.
Proof. unfold find. induction l as [|x l IH]; cbn; congruence. Qed.

Lemma discover_run (db : DB) (user : User.t) :
  discover user db = (db, Return (discover_spec db user)).
Proof.
  unfold discover. run_handler. rewrite discover_loop, find_all.
  unfold discover_spec, limit. cbn [app]. do 3 f_equal.
  apply filter_ext. intros u. rewrite swiped_ids_excluded. reflexivity.
Qed.

(** C5. Whatever the requester and the database, no profile returned by
    [discover] has the requester's own id, and none has the id of a target
    of a swipe, like or pass, that the requester has recorded. *)
Theorem discover_excludes_self_and_swiped (db : DB) (user : User.t) :
  exists profiles,
    discover user db = (db, Return profiles)
    /\ Forall (fun p =>
         Profile.id p <> User.id user
         /\ forall s, In s (db_swipe db) -> Swipe.user_id s = User.id user ->
                      Swipe.target_id s <> Profile.id p)
       profiles.
Proof.
  exists (discover_spec db user). split; [apply discover_run|].
  unfold discover_spec. apply Forall_forall. intros p Hp.
  apply in_map_iff in Hp. destruct Hp as (u & <- & Hu).
  apply filter_In in Hu. destruct Hu as [_ Hex].
  apply negb_true_iff in Hex. unfold excluded in Hex.
  apply orb_false_iff in Hex. destruct Hex as [Hself Hsw].
  cbn [Profile.id Profile.of_user]. split.
  - apply String.eqb_neq. exact Hself.
  - intros s Hs Hby Htarget.
    assert (Hx : existsb (fun s0 => (Swipe.user_id s0 =? User.id user)
                                    && (Swipe.target_id s0 =? User.id u))
                   (db_swipe db) = true).
    { apply existsb_exists. exists s. split; [exact Hs|].
      rewrite Hby, Htarget, !String.eqb_refl. reflexivity. }
    congruence.
Qed.

(** C6. [discover] reads the first 50 user records in store order and only
    then removes the exclusion set: its result is [discover_spec], the first
    50 stored users without the excluded ones.  So it returns at most 50
    profiles, and a user stored beyond the first 50 is not returned even
    when eligible: in [crowd] the 51st user is eligible for the first and is
    not among the 49 profiles the first user gets. *)
Theorem discover_scan_cap_before_filter :
  (forall db user,
     discover user db = (db, Return (discover_spec db user))
     /\ List.length (discover_spec db user) <= 50)
  /\ (exists profiles,
        discover (sample_user 0) crowd = (crowd, Return profiles)
        /\ List.length profiles = 49
        /\ In (sample_user 50) (db_user crowd)
        /\ excluded crowd (User.id (sample_user 0)) (User.id (sample_user 50)) = false
        /\ forallb (fun p => negb (Profile.id p =? User.id (sample_user 50)))
                   profiles = true).
Proof.
  split.
  - intros db user. split; [apply discover_run|].
    unfold discover_spec. rewrite length_map.
    etransitivity; [apply filter_length_le|]. apply firstn_le_length.
  - exists (discover_spec crowd (sample_user 0)).
    split; [apply discover_run|].
    split; [vm_compute; reflexivity|].
    split; [|split; vm_compute; reflexivity].
    unfold crowd; cbn [db_user]. apply in_map. apply in_seq. lia.
Qed.

(** ** Claims on [signup] *)





(** [signup], one store operation after the other. *)
Lemma signup_run (oid : ObjectId.t) (t_created t_updated : datetime)
    (payload : SignupRequest) (db : DB) :
  let email := lower (signup_email payload) in
  signup oid t_created t_updated payload db =
  if existsb (fun u => User.email u =? email) (db_user db)
  then (db, Raise (HTTPException 400 "Email already registered"))
  else (insert_user
          (User.mk oid (signup_name payload) email
                   (hash_password (signup_password payload))
                   true None None None None [] [] t_created t_updated) db,
        Return (mkSignupResponse (ObjectId.str oid) email (signup_name payload))).
Proof.
  cbv zeta. unfold signup. run_handler.
  destruct (find_one _ _) eqn:E.
  - assert (Hx : existsb (fun u => User.email u =? lower (signup_email payload))
                   (db_user db) = true) by (apply find_one_some_iff; eauto).
    rewrite Hx. reflexivity.
  - apply find_one_none_iff in E. rewrite E. reflexivity.
Qed.


(** ** Claims on [get_current_user] *)

Lemma str_replace_Bearer_prefix (t : string) :
  str_replace "Bearer " "" ("Bearer " ++ t) = str_replace "Bearer " "" t.
Proof.
  cbn [append]. rewrite str_replace_equation_2. cbn [String.eqb negb andb].
  assert (H : String.prefix "Bearer "
                (String "B" (String "e" (String "a" (String "r"
                  (String "e" (String "r" (String " " t))))))) = true).
  { cbn. destruct t; reflexivity. }
  rewrite H. reflexivity.
Qed.

(** An occurrence of ["Bearer "] is removed wherever it stands: here after
    any text [x] without the letter [B]. *)
Lemma str_replace_Bearer_inside (x y : string) :
  all_chars (fun c => negb (Ascii.eqb c "B")) x = true ->
  str_replace "Bearer " "" (x ++ "Bearer " ++ y) = x ++ str_replace "Bearer " "" y.
Proof.
  induction x as [|c x IH]; intros Hx.
  - apply str_replace_Bearer_prefix.
  - cbn in Hx. apply andb_true_iff in Hx. destruct Hx as [Hc Hx].
    apply negb_true_iff, Ascii.eqb_neq in Hc.
    change (String c x ++ "Bearer " ++ y) with (String c (x ++ "Bearer " ++ y)).
    rewrite str_replace_equation_2. cbn [String.eqb negb andb].
    assert (H : String.prefix "Bearer " (String c (x ++ "Bearer " ++ y)) = false).
    { cbn [String.prefix].
      destruct (ascii_dec "B" c) as [E|_]; [congruence|reflexivity]. }
    rewrite H. cbn. rewrite <- (IH Hx). reflexivity.
Qed.

Lemma lower_canonical (s : string) :
  all_chars (fun c => ObjectId.is_hex_digit c && negb (is_upper c)) s = true ->
  lower s = s /\ all_chars ObjectId.is_hex_digit s = true.
Proof.
  induction s as [|c s IH]; cbn; [auto|].
  intros H. apply andb_true_iff in H. destruct H as [Hc Hs].
  apply andb_true_iff in Hc. destruct Hc as [Hh Hu].
  destruct (IH Hs) as [IH1 IH2]. rewrite IH1, IH2, Hh.
  unfold ascii_lower. apply negb_true_iff in Hu. rewrite Hu. auto.
Qed.

(** [ObjectId(str(oid))] is [oid] again. *)
Lemma of_str_canonical (o : ObjectId.t) :
  ObjectId.canonical o = true -> ObjectId.of_str (ObjectId.str o) = Some o.
Proof.
  destruct o as [h]. unfold ObjectId.canonical, ObjectId.of_str, ObjectId.str.
  cbn [ObjectId.hex]. intros H. apply andb_true_iff in H. destruct H as [Hlen Hc].
  destruct (lower_canonical h Hc) as [Hl Hh]. rewrite Hlen, Hh, Hl. reflexivity.
Qed.

(** [get_current_user] on a header that is present and not empty. *)
Lemma get_current_user_run (db : DB) (now : datetime) (header : string) :
  header <> "" ->
  get_current_user now (Some header) db =
  match find_one (live_session (str_replace "Bearer " "" header) now)
                 (db_session db) with
  | None => (db, Raise (HTTPException 401 "Invalid or expired token"))
  | Some session =>
      match ObjectId.of_str (Session.user_id session) with
      | None => (db, Raise (InvalidId (Session.user_id session)))
      | Some oid =>
          match find_one (fun u => ObjectId.eqb (User._id u) oid) (db_user db) with
          | None => (db, Raise (HTTPException 401 "User not found"))
          | Some user => (db, Return user)
          end
      end
  end.
Proof.
  intros Hne. destruct header as [|c h]; [congruence|].
  unfold get_current_user. run_handler.
  destruct (find_one _ _) as [session|]; [|reflexivity].
  destruct (ObjectId.of_str _) as [oid|]; [|reflexivity].
  cbv beta. destruct (find_one _ _); reflexivity.
Qed.

(** In a reachable database the user of a live session is found. *)
Lemma session_user_found (db : DB) (s : Session.t) :
  invariant db -> In s (db_session db) ->
  exists oid user,
    ObjectId.of_str (Session.user_id s) = Some oid
    /\ find_one (fun u => ObjectId.eqb (User._id u) oid) (db_user db) = Some user.
Proof.
  intros Hinv Hs.
  destruct (inv_sessions_owned db Hinv s Hs) as [_ (u & Hu & Hid)].
  pose proof (inv_users_canonical db Hinv u Hu) as Hc.
  exists (User._id u). rewrite Hid. unfold User.id.
  rewrite (of_str_canonical _ Hc).
  assert (Hx : existsb (fun u0 => ObjectId.eqb (User._id u0) (User._id u))
                 (db_user db) = true).
  { apply existsb_exists. exists u. split; [exact Hu|].
    unfold ObjectId.eqb. apply String.eqb_refl. }
  apply find_one_some_iff in Hx. destruct Hx as [user Hx].
  exists user. split; [reflexivity|exact Hx].
Qed.

(** C10. [get_current_user] takes as token the header with every occurrence
    of ["Bearer "] removed, found from the left, wherever it stands and not
    only in front: a header that is the bare token authenticates exactly as
    the same token behind the prefix; and in a database the service can
    reach, a header authenticates if and only if what is left of it after
    the removal is the token of a stored session whose expiry is after
    [now]. *)
Theorem get_current_user_token_extraction (db : DB) (now : datetime) :
  (forall token, token <> "" ->
     get_current_user now (Some ("Bearer " ++ token)) db =
     get_current_user now (Some token) db)
  /\ (forall x y, all_chars (fun c => negb (Ascii.eqb c "B")) x = true ->
        str_replace "Bearer " "" (x ++ "Bearer " ++ y)
        = x ++ str_replace "Bearer " "" y)
  /\ (reachable db -> forall header,
        (exists user, get_current_user now (Some header) db = (db, Return user))
        <->
        (exists s, In s (db_session db)
                   /\ Session.token s = str_replace "Bearer " "" header
                   /\ (now < Session.expires_at s)%Z)).
Proof.
  split; [|split].
  - intros token Hne.
    rewrite !get_current_user_run; [|exact Hne|discriminate].
    rewrite str_replace_Bearer_prefix. reflexivity.
  - apply str_replace_Bearer_inside.
  - intros Hreach header.
    pose proof (reachable_invariant db Hreach) as Hinv. split.
    + intros [user Hrun].
      destruct header as [|c h]; [discriminate Hrun|].
      rewrite get_current_user_run in Hrun by discriminate.
      destruct (find_one _ _) as [s|] eqn:Hfind; [|discriminate Hrun].
      apply find_some in Hfind. destruct Hfind as [Hin Hlive].
      apply andb_true_iff in Hlive. destruct Hlive as [Htok Hexp].
      apply String.eqb_eq in Htok. apply Z.ltb_lt in Hexp.
      exists s. auto.
    + intros (s & Hin & Htok & Hexp).
      assert (Hx : existsb (live_session (str_replace "Bearer " "" header) now)
                     (db_session db) = true).
      { apply existsb_exists. exists s. split; [exact Hin|].
        unfold live_session. rewrite Htok, String.eqb_refl.
        apply Z.ltb_lt in Hexp. rewrite Hexp. reflexivity. }
      apply find_one_some_iff in Hx. destruct Hx as [s' Hfind].
      pose proof Hfind as Hfind'. apply find_some in Hfind'.
      destruct Hfind' as [Hin' Hlive'].
      assert (Hne : header <> "").
      { intros ->. apply andb_true_iff in Hlive'. destruct Hlive' as [Ht _].
        apply String.eqb_eq in Ht.
        destruct (inv_sessions_owned db Hinv s' Hin') as [Hnonempty _].
        apply Hnonempty. rewrite Ht. reflexivity. }
      rewrite (get_current_user_run db now header Hne), Hfind.
      destruct (session_user_found db s' Hinv Hin') as (oid & user & Hoid & Huser).
      rewrite Hoid, Huser. exists user. reflexivity.
Qed.

Lemma reachable_run (requests : list Request) (db : DB) :
  forallb env_ok requests = true -> reachable db -> reachable (run requests db).
Proof.
  revert db. induction requests as [|r rs IH]; intros db Henv Hdb; [exact Hdb|].
  cbn in Henv. apply andb_true_iff in Henv. destruct Henv as [Hr Hrs].
  cbn [run fold_left]. apply IH; [exact Hrs|].
  apply reachable_serve; assumption.
Defined.

(** * More of the service *)

(** ** Requests, one handler at a time *)

(** [get_current_user] returns a stored user and writes nothing. *)
Lemma get_current_user_stored (now : datetime) (authorization : option string)
    (db db' : DB) (user : User.t) :
  get_current_user now authorization db = (db', Return user) ->
  db' = db /\ In user (db_user db).
Proof.
  intros H. destruct authorization as [[|c h]|]; try discriminate H.
  rewrite get_current_user_run in H by discriminate.
  destruct (find_one _ (db_session db)) as [s|]; [|discriminate H].
  destruct (ObjectId.of_str _) as [oid|]; [|discriminate H].
  destruct (find_one _ (db_user db)) as [u|] eqn:Hu; [|discriminate H].
  injection H as <- <-. apply find_some in Hu. split; [reflexivity|tauto].
Qed.

Lemma serve_served (r : Request) (db : DB) :
  env_ok r = true -> served db (fst (serve r db)).
Proof.
  intros Henv. destruct r; cbn [serve env_ok] in *.
  - unfold bind at 1.
    pose proof (served_signup db oid t_created t_updated payload Henv) as H.
    destruct (signup _ _ _ _ db) as [db' [a|e]]; exact H.
  - unfold bind at 1.
    apply negb_true_iff, String.eqb_neq in Henv.
    pose proof (served_login db token now payload Henv) as H.
    destruct (login _ _ _ db) as [db' [a|e]]; exact H.
  - unfold bind at 1.
    destruct (get_current_user _ _ db) as [db' [user|e]] eqn:Hu.
    + apply get_current_user_stored in Hu. destruct Hu as [-> Hin].
      unfold bind at 1.
      pose proof (served_update_me db now update user Hin) as H.
      destruct (update_me _ _ _ db) as [db' [a|e]]; exact H.
    + pose proof (get_current_user_state t_auth authorization db) as Hs.
      rewrite Hu in Hs. cbn in *. subst db'. apply served_nothing.
  - unfold bind at 1.
    pose proof (get_current_user_state t_auth authorization db) as Hs.
    destruct (get_current_user _ _ db) as [db' [user|e]]; cbn in Hs; subst db';
      apply served_nothing.
  - unfold bind at 1.
    destruct (get_current_user _ _ db) as [db' [user|e]] eqn:Hu.
    + apply get_current_user_stored in Hu. destruct Hu as [-> Hin].
      unfold bind at 1.
      pose proof (served_swipe db t_swipe t_match payload user Hin) as H.
      destruct (swipe _ _ _ _ db) as [db' [a|e]]; exact H.
    + pose proof (get_current_user_state t_auth authorization db) as Hs.
      rewrite Hu in Hs. cbn in *. subst db'. apply served_nothing.
Qed.

(** A property of the empty database that every served request keeps holds
    of every reachable database. *)
Lemma reachable_served_ind (P : DB -> Prop) :
  P empty_db ->
  (forall db db', reachable db -> P db -> served db db' -> P db') ->
  forall db, reachable db -> P db.
Proof.
  intros H0 Hstep db Hreach.
  induction Hreach as [|db r Hreach IH Henv]; [exact H0|].
  apply (Hstep db); [exact Hreach | exact IH | apply serve_served; exact Henv].
Qed.

(** ** What each handler writes *)

Lemma login_run (token : string) (now : datetime) (payload : LoginRequest)
    (db : DB) :
  let email := lower (login_email payload) in
  login token now payload db =
  match find_one (fun u => User.email u =? email) (db_user db) with
  | None => (db, Raise (HTTPException 401 "Invalid credentials"))
  | Some user =>
      if User.password_hash user =? hash_password (login_password payload)
      then (insert_session (Session.mk (User.id user) token (now + seven_days)) db,
            Return (mkLoginResponse token
                      (mkSignupResponse (User.id user) (User.name user)
                                        (User.email user))))
      else (db, Raise (HTTPException 401 "Invalid credentials"))
  end.
Proof.
  cbv zeta. unfold login. run_handler.
  destruct (find_one _ _) as [user|]; [|reflexivity].
  destruct (User.password_hash user =? _); reflexivity.
Qed.

Lemma login_db_user (token : string) (now : datetime) (payload : LoginRequest)
    (db : DB) :
  db_user (fst (login token now payload db)) = db_user db.
Proof.
  rewrite login_run; cbv zeta.
  destruct (find_one _ _) as [user|]; [|reflexivity].
  destruct (User.password_hash user =? _); reflexivity.
Qed.

Lemma update_me_run (now : datetime) (update : ProfileUpdate) (user : User.t)
    (db : DB) :
  update_me now update user db =
  if updates_empty update then (db, Return false)
  else match ObjectId.of_str (User.id user) with
       | None => (db, Raise (InvalidId (User.id user)))
       | Some oid =>
           (update_user (fun u => ObjectId.eqb (User._id u) oid)
                        (set_fields update now) db, Return true)
       end.
Proof.
  unfold update_me. destruct (updates_empty update); [reflexivity|].
  destruct (ObjectId.of_str _); reflexivity.
Qed.

Lemma update_one_map {A B} (g : A -> B) (q : A -> bool) (f : A -> A)
    (coll : list A) :
  (forall x, g (f x) = g x) -> map g (update_one q f coll) = map g coll.
Proof.
  intros Hg. induction coll as [|d rest IH]; cbn; [reflexivity|].
  destruct (q d); cbn; [rewrite Hg | rewrite IH]; reflexivity.
Qed.

Lemma update_me_map_users {B} (g : User.t -> B) (now : datetime)
    (update : ProfileUpdate) (user : User.t) (db : DB) :
  (forall u, g (set_fields update now u) = g u) ->
  map g (db_user (fst (update_me now update user db))) = map g (db_user db).
Proof.
  intros Hg. rewrite update_me_run.
  destruct (updates_empty update); [reflexivity|].
  destruct (ObjectId.of_str _); [|reflexivity].
  cbn. apply update_one_map. exact Hg.
Qed.


(** ** Emails *)



(** ** Who is in the ledger *)

Lemma registered_users (db db' : DB) (uid : string) :
  map User.id (db_user db') = map User.id (db_user db) ->
  registered db uid -> registered db' uid.
Proof.
  intros Hmap (u & Hu & Hid). unfold registered.
  assert (Hin : In uid (map User.id (db_user db')))
    by (rewrite Hmap, <- Hid; apply in_map; exact Hu).
  apply in_map_iff in Hin. destruct Hin as (u' & Hid' & Hu'). eauto.
Qed.

Lemma ledger_owned_users (db db' : DB) :
  map User.id (db_user db') = map User.id (db_user db) ->
  db_swipe db' = db_swipe db -> db_match db' = db_match db ->
  ledger_owned db -> ledger_owned db'.
Proof.
  intros Hu Hs Hm [H1 H2]. unfold ledger_owned. rewrite Hs, Hm. split.
  - intros s Hin. apply (registered_users db); [exact Hu|]. exact (H1 s Hin).
  - intros m Hin. destruct (H2 m Hin).
    split; apply (registered_users db); assumption.
Qed.

Lemma has_like_registered (actor target : string) (db : DB) :
  ledger_owned db -> has_like actor target db = true -> registered db actor.
Proof.
  intros [H1 _] Hlike. apply has_like_iff in Hlike.
  destruct Hlike as (s & Hs & Ha & _). rewrite <- Ha. exact (H1 s Hs).
Qed.

Lemma served_ledger_owned (db db' : DB) :
  served db db' -> ledger_owned db -> ledger_owned db'.
Proof.
  intros Hserved Hown. destruct Hserved.
  - exact Hown.
  - rewrite signup_run; cbv zeta.
    destruct (existsb _ _); cbn [fst]; [exact Hown|].
    destruct Hown as [H1 H2].
    assert (Hreg : forall uid, registered db uid ->
              registered (insert_user
                (User.mk oid (signup_name payload) (lower (signup_email payload))
                   (hash_password (signup_password payload))
                   true None None None None [] [] t_created t_updated) db) uid).
    { intros uid (u & Hu & Hid). exists u. split; [|exact Hid].
      unfold insert_user, insert_one; cbn. apply in_or_app. left; exact Hu. }
    split.
    + intros s Hs. apply Hreg. exact (H1 s Hs).
    + intros m Hm. destruct (H2 m Hm). split; apply Hreg; assumption.
  - apply (ledger_owned_users db); try exact Hown.
    + rewrite login_db_user. reflexivity.
    + rewrite login_run; cbv zeta. destruct (find_one _ _) as [u|]; [|reflexivity].
      destruct (User.password_hash u =? _); reflexivity.
    + rewrite login_run; cbv zeta. destruct (find_one _ _) as [u|]; [|reflexivity].
      destruct (User.password_hash u =? _); reflexivity.
  - apply (ledger_owned_users db); try exact Hown.
    + apply update_me_map_users. reflexivity.
    + rewrite update_me_run. destruct (updates_empty update); [reflexivity|].
      destruct (ObjectId.of_str _); reflexivity.
    + rewrite update_me_run. destruct (updates_empty update); [reflexivity|].
      destruct (ObjectId.of_str _); reflexivity.
  - rewrite swipe_state; cbv zeta.
    destruct (negb _); [exact Hown|].
    assert (Hactor : registered db (User.id user)) by (exists user; auto).
    assert (Hrec : ledger_owned (swipe_recorded t_swipe payload user db)).
    { destruct Hown as [H1 H2]. split.
      - intros s Hs. unfold swipe_recorded, insert_swipe, insert_one in Hs.
        cbn in Hs. apply in_app_or in Hs. destruct Hs as [Hs|[<-|[]]].
        + exact (H1 s Hs).
        + exact Hactor.
      - exact H2. }
    destruct (_ && _ && _) eqn:E; [|exact Hrec].
    apply andb_true_iff in E. destruct E as [E _].
    apply andb_true_iff in E. destruct E as [_ Hlike].
    pose proof (has_like_registered _ _ _ Hrec Hlike) as Htarget.
    destruct Hrec as [H1 H2]. split; [exact H1|].
    intros m Hm. unfold insert_match, insert_one in Hm. cbn in Hm.
    apply in_app_or in Hm. destruct Hm as [Hm|[<-|[]]].
    + exact (H2 m Hm).
    + cbn. split; [exact Hactor | exact Htarget].
Qed.

(** X2. In every database the service can reach, the actor of every
    recorded swipe is a stored user, and so are both parties of every Match
    record: a swipe is recorded for the authenticated user only, and a
    Match is created only for a target that has itself swiped.  (The target
    of a swipe is not checked and need not be a user.) *)
Theorem reachable_ledger_owned (db : DB) :
  reachable db -> ledger_owned db.
Proof.
  apply reachable_served_ind.
  - split; [intros s [] | intros m []].
  - intros d d' _ H Hs. exact (served_ledger_owned d d' Hs H).
Qed.

(** X3. In every database the service can reach, a Match record for the
    pair [{a, b}] is stored if and only if the ledger holds a like from a
    to b and a like from b to a. *)
Theorem reachable_match_iff_mutual_like (db : DB) (a b : string) :
  reachable db ->
  (matches_of a b db <> []
   <-> has_like a b db = true /\ has_like b a db = true).
Proof.
  intros Hreach. pose proof (reachable_invariant db Hreach) as Hinv. split.
  - intros Hne.
    destruct (matches_of a b db) as [|m l] eqn:Em; [congruence|].
    assert (Hin : In m (matches_of a b db)) by (rewrite Em; left; reflexivity).
    apply filter_In in Hin. destruct Hin as [Hin Hq].
    destruct (inv_match_backed db Hinv m Hin) as [H1 H2].
    apply match_between_true in Hq.
    destruct Hq as [[Ha Hb]|[Ha Hb]]; rewrite Ha, Hb in H1, H2; auto.
  - intros [Hab Hba]. exact (inv_mutual_matched db Hinv a b Hab Hba).
Qed.

(** ** Nothing is deleted *)

Lemma grows_refl (db : DB) : grows db db.
Proof. repeat split; exists []; rewrite app_nil_r; reflexivity. Qed.

Lemma grows_trans (db1 db2 db3 : DB) :
  grows db1 db2 -> grows db2 db3 -> grows db1 db3.
Proof.
  intros ([u1 Hu1] & [s1 Hs1] & [w1 Hw1] & [m1 Hm1])
         ([u2 Hu2] & [s2 Hs2] & [w2 Hw2] & [m2 Hm2]).
  repeat split.
  - exists (u1 ++ u2)%list. rewrite Hu2, Hu1, app_assoc. reflexivity.
  - exists (s1 ++ s2)%list. rewrite Hs2, Hs1, app_assoc. reflexivity.
  - exists (w1 ++ w2)%list. rewrite Hw2, Hw1, app_assoc. reflexivity.
  - exists (m1 ++ m2)%list. rewrite Hm2, Hm1, app_assoc. reflexivity.
Qed.

Lemma signup_grows (oid : ObjectId.t) (t_created t_updated : datetime)
    (payload : SignupRequest) (db : DB) :
  grows db (fst (signup oid t_created t_updated payload db)).
Proof.
  rewrite signup_run; cbv zeta.
  destruct (existsb _ _); cbn [fst]; [apply grows_refl|].
  unfold insert_user, insert_one. repeat split; cbn.
  - eexists. rewrite map_app. reflexivity.
  - exists []. rewrite app_nil_r. reflexivity.
  - exists []. rewrite app_nil_r. reflexivity.
  - exists []. rewrite app_nil_r. reflexivity.
Qed.

Lemma login_grows (token : string) (now : datetime) (payload : LoginRequest)
    (db : DB) :
  grows db (fst (login token now payload db)).
Proof.
  rewrite login_run; cbv zeta.
  destruct (find_one _ _) as [u|]; [|apply grows_refl].
  destruct (User.password_hash u =? _); [|apply grows_refl].
  unfold insert_session, insert_one. repeat split; cbn.
  - exists []. rewrite app_nil_r. reflexivity.
  - eexists. reflexivity.
  - exists []. rewrite app_nil_r. reflexivity.
  - exists []. rewrite app_nil_r. reflexivity.
Qed.

Lemma update_me_grows (now : datetime) (update : ProfileUpdate) (user : User.t)
    (db : DB) :
  grows db (fst (update_me now update user db)).
Proof.
  repeat split.
  - exists []. rewrite app_nil_r. apply update_me_map_users. reflexivity.
  - exists []. rewrite app_nil_r, update_me_run.
    destruct (updates_empty update); [reflexivity|].
    destruct (ObjectId.of_str _); reflexivity.
  - exists []. rewrite app_nil_r, update_me_run.
    destruct (updates_empty update); [reflexivity|].
    destruct (ObjectId.of_str _); reflexivity.
  - exists []. rewrite app_nil_r, update_me_run.
    destruct (updates_empty update); [reflexivity|].
    destruct (ObjectId.of_str _); reflexivity.
Qed.

Lemma swipe_grows (t_swipe t_match : datetime) (payload : SwipeRequest)
    (user : User.t) (db : DB) :
  grows db (fst (swipe t_swipe t_match payload user db)).
Proof.
  rewrite swipe_state; cbv zeta.
  destruct (negb _); [apply grows_refl|].
  unfold swipe_recorded, insert_match, insert_swipe, insert_one.
  destruct (_ && _ && _); repeat split; cbn.
  all: try (exists []; rewrite app_nil_r; reflexivity).
  all: eexists; reflexivity.
Qed.

Lemma serve_grows (r : Request) (db : DB) : grows db (fst (serve r db)).
Proof.
  destruct r; cbn [serve].
  - unfold bind at 1.
    pose proof (signup_grows oid t_created t_updated payload db) as H.
    destruct (signup _ _ _ _ db) as [db' [a|e]]; exact H.
  - unfold bind at 1.
    pose proof (login_grows token now payload db) as H.
    destruct (login _ _ _ db) as [db' [a|e]]; exact H.
  - unfold bind at 1.
    pose proof (get_current_user_state t_auth authorization db) as Hs.
    destruct (get_current_user _ _ db) as [db' [user|e]]; cbn in Hs; subst db';
      [|apply grows_refl].
    unfold bind at 1.
    pose proof (update_me_grows now update user db) as H.
    destruct (update_me _ _ _ db) as [db' [a|e]]; exact H.
  - unfold bind at 1.
    pose proof (get_current_user_state t_auth authorization db) as Hs.
    destruct (get_current_user _ _ db) as [db' [user|e]]; cbn in Hs; subst db';
      apply grows_refl.
  - unfold bind at 1.
    pose proof (get_current_user_state t_auth authorization db) as Hs.
    destruct (get_current_user _ _ db) as [db' [user|e]]; cbn in Hs; subst db';
      [|apply grows_refl].
    unfold bind at 1.
    pose proof (swipe_grows t_swipe t_match payload user db) as H.
    destruct (swipe _ _ _ _ db) as [db' [a|e]]; exact H.
Qed.

(** X4. No sequence of requests deletes or rewrites anything but profile
    fields: after it the stored users are those of before, in the same
    order, each with the same [_id], email, password hash and creation
    time, followed by the new ones; and the sessions, the swipes and the
    Match records of before are all there, unchanged and in the same
    order, followed by the new ones.  So a Match, once recorded, stays. *)
Theorem run_grows (requests : list Request) (db : DB) :
  grows db (run requests db)
  /\ forall a b, matches_of a b db <> [] -> matches_of a b (run requests db) <> [].
Proof.
  assert (H : grows db (run requests db)).
  { revert db. induction requests as [|r rs IH]; intros db; [apply grows_refl|].
    cbn [run fold_left]. apply (grows_trans _ (fst (serve r db))).
    - apply serve_grows.
    - apply IH. }
  split; [exact H|].
  intros a b Hne. destruct H as (_ & _ & _ & [more Hm]).
  unfold matches_of in *. rewrite Hm, filter_app. intros Hnil.
  apply app_eq_nil in Hnil. tauto.
Qed.

(** ** Signing up, logging in, authenticating *)


Lemma ledger_owned_reachable (db : DB) : reachable db -> ledger_owned db.
Proof.
  intros Hreach. induction Hreach as [|db r Hreach IH Henv].
  - split; [intros s [] | intros m []].
  - apply (served_ledger_owned db); [apply serve_served; exact Henv | exact IH].
Qed.




Lemma prefix_app (p s : string) :
  String.prefix p s = true -> exists rest, s = p ++ rest.
Proof.
  revert s. induction p as [|c p IH]; intros s H.
  - exists s. reflexivity.
  - destruct s as [|d s]; [discriminate H|]. cbn [String.prefix] in H.
    destruct (ascii_dec c d) as [->|_]; [|discriminate H].
    destruct (IH s H) as [rest ->]. exists rest. reflexivity.
Qed.

(** A text without a space holds no ["Bearer "] and is left as it is. *)
Lemma str_replace_no_space (s : string) :
  all_chars (fun c => negb (Ascii.eqb c " ")) s = true ->
  str_replace "Bearer " "" s = s.
Proof.
  induction s as [|c s IH]; intros Hs; [reflexivity|].
  rewrite str_replace_equation_2. cbn [String.eqb negb andb].
  destruct (String.prefix "Bearer " (String c s)) eqn:Hp.
  - apply prefix_app in Hp. destruct Hp as [rest Hrest].
    rewrite Hrest in Hs. cbn in Hs. discriminate Hs.
  - cbn. cbn in Hs. apply andb_true_iff in Hs. destruct Hs as [_ Hs].
    rewrite (IH Hs). reflexivity.
Qed.

(** X7. A token that a successful [login] has just issued, drawn without a
    space (as [token_urlsafe] draws it) and held by no earlier session,
    authenticates behind ["Bearer "] at every time before the login's
    [now] plus seven days, as a stored user with the id the login
    answered; from that time on [get_current_user] fails with
    [HTTPException(401, "Invalid or expired token")]. *)
Theorem login_then_authenticate (db : DB) (token : string) (now now' : datetime)
    (lp : LoginRequest) (resp : LoginResponse) :
  reachable db ->
  snd (login token now lp db) = Return resp ->
  all_chars (fun c => negb (Ascii.eqb c " ")) token = true ->
  (forall s, In s (db_session db) -> Session.token s <> token) ->
  let db1 := fst (login token now lp db) in
  let header := Some ("Bearer " ++ token) in
  ((now' < now + seven_days)%Z ->
     exists user, get_current_user now' header db1 = (db1, Return user)
                  /\ In user (db_user db1)
                  /\ User.id user = resp_id (resp_user resp))
  /\ ((now + seven_days <= now')%Z ->
      get_current_user now' header db1 =
      (db1, Raise (HTTPException 401 "Invalid or expired token"))).
Proof.
  intros Hreach Hok Hspace Hfresh db1 header.
  pose proof (reachable_invariant db Hreach) as Hinv.
  unfold db1, header. rewrite login_run in *; cbv zeta in *.
  destruct (find_one _ (db_user db)) as [u|] eqn:Hfind; [|discriminate Hok].
  destruct (User.password_hash u =? _); [|discriminate Hok].
  cbn [fst snd] in *. injection Hok as <-. cbn [resp_user resp_id].
  apply find_some in Hfind. destruct Hfind as [Hin _].
  assert (Hold : find_one (live_session token now') (db_session db) = None).
  { apply find_one_none_iff. apply not_true_is_false. intros Hx.
    apply existsb_exists in Hx. destruct Hx as (s & Hs & Hlive).
    apply andb_true_iff in Hlive. destruct Hlive as [Ht _].
    apply String.eqb_eq in Ht. exact (Hfresh s Hs Ht). }
  assert (Hrun : forall d, get_current_user now' (Some ("Bearer " ++ token)) d =
            match find_one (live_session token now') (db_session d) with
            | None => (d, Raise (HTTPException 401 "Invalid or expired token"))
            | Some session =>
                match ObjectId.of_str (Session.user_id session) with
                | None => (d, Raise (InvalidId (Session.user_id session)))
                | Some oid =>
                    match find_one (fun u => ObjectId.eqb (User._id u) oid)
                                   (db_user d) with
                    | None => (d, Raise (HTTPException 401 "User not found"))
                    | Some user => (d, Return user)
                    end
                end
            end).
  { intros d. rewrite get_current_user_run by discriminate.
    rewrite str_replace_Bearer_prefix, (str_replace_no_space token Hspace).
    reflexivity. }
  set (s0 := Session.mk (User.id u) token (now + seven_days)) in *.
  assert (Hsess : find_one (live_session token now')
                    (db_session (insert_session s0 db)) =
                  if (now' <? now + seven_days)%Z then Some s0 else None).
  { unfold insert_session, insert_one. cbn [db_session].
    rewrite find_one_app, Hold. unfold find_one. cbn [List.find].
    unfold live_session, s0. cbn [Session.token Session.expires_at].
    rewrite String.eqb_refl. reflexivity. }
  split.
  - intros Hlt. apply Z.ltb_lt in Hlt. rewrite Hrun, Hsess, Hlt.
    change (Session.user_id s0) with (ObjectId.str (User._id u)).
    rewrite (of_str_canonical _ (inv_users_canonical db Hinv u Hin)).
    change (db_user (insert_session s0 db)) with (db_user db).
    destruct (find_one _ (db_user db)) as [user|] eqn:Hu.
    + apply find_some in Hu. destruct Hu as [Hin' Heq].
      exists user. repeat split; [exact Hin'|].
      unfold ObjectId.eqb in Heq. apply String.eqb_eq in Heq. exact Heq.
    + apply find_one_none_iff in Hu.
      assert (Hx : existsb (fun u0 => ObjectId.eqb (User._id u0) (User._id u))
                     (db_user db) = true).
      { apply existsb_exists. exists u. split; [exact Hin|].
        apply String.eqb_refl. }
      congruence.
  - intros Hge. apply Z.ltb_ge in Hge. rewrite Hrun, Hsess, Hge. reflexivity.
Qed.

(** X8. In a database the service can reach, [get_current_user] ends in one
    of three ways and writes nothing: it returns a stored user who owns a
    stored session, or it fails with 401 for a missing header, or with 401
    for an invalid or expired token.  Its two other failures, a session
    whose user id is no [ObjectId] and a session whose user is gone, do not
    occur. *)
Theorem get_current_user_outcomes (db : DB) (now : datetime)
    (authorization : option string) :
  reachable db ->
  (exists user s,
     get_current_user now authorization db = (db, Return user)
     /\ In user (db_user db) /\ In s (db_session db)
     /\ Session.user_id s = User.id user /\ (now < Session.expires_at s)%Z)
  \/ get_current_user now authorization db =
     (db, Raise (HTTPException 401 "Missing authorization header"))
  \/ get_current_user now authorization db =
     (db, Raise (HTTPException 401 "Invalid or expired token")).
Proof.
  intros Hreach. pose proof (reachable_invariant db Hreach) as Hinv.
  destruct authorization as [[|c h]|]; [right; left; reflexivity| |right; left; reflexivity].
  rewrite get_current_user_run by discriminate.
  destruct (find_one _ (db_session db)) as [s|] eqn:Hs; [|right; right; reflexivity].
  left. apply find_some in Hs. destruct Hs as [Hin Hlive].
  apply andb_true_iff in Hlive. destruct Hlive as [_ Hexp]. apply Z.ltb_lt in Hexp.
  destruct (session_user_found db s Hinv Hin) as (oid & user & Hoid & Huser).
  rewrite Hoid, Huser. apply find_some in Huser. destruct Huser as [Hu Heq].
  exists user, s. repeat split; try assumption.
  destruct (inv_sessions_owned db Hinv s Hin) as [_ (u & Hu' & Hid)].
  rewrite Hid in Hoid. unfold User.id in Hoid.
  rewrite (of_str_canonical _ (inv_users_canonical db Hinv u Hu')) in Hoid.
  injection Hoid as <-. rewrite Hid. unfold User.id, ObjectId.str.
  unfold ObjectId.eqb in Heq. apply String.eqb_eq in Heq. symmetry. exact Heq.
Qed.

(** ** Editing the profile *)


Lemma ObjectId_eqb_eq (a b : ObjectId.t) : ObjectId.eqb a b = true -> a = b.
Proof.
  destruct a as [x], b as [y]. unfold ObjectId.eqb. cbn.
  intros H. apply String.eqb_eq in H. congruence.
Qed.


(** ** Matches *)

Lemma involves_partner (a b : string) (m : Match.t) :
  involves a m = true /\ partner_of a m = b <-> match_between a b m = true.
Proof.
  rewrite match_between_true. unfold involves, partner_of. split.
  - intros [Hi Hp]. apply orb_true_iff in Hi.
    destruct (String.eqb_spec (Match.user_a m) a) as [Ha|Ha].
    + left. split; assumption.
    + destruct Hi as [Hi|Hi]; [discriminate Hi|].
      apply String.eqb_eq in Hi. right. split; assumption.
  - intros [[H1 H2]|[H1 H2]].
    + rewrite H1, String.eqb_refl. split; [reflexivity|exact H2].
    + destruct (String.eqb_spec (Match.user_a m) a) as [Ha|Ha].
      * split; [reflexivity|congruence].
      * rewrite H2, String.eqb_refl. split; [reflexivity|exact H1].
Qed.

(** The loop of [matches] when every id is the id of a stored user. *)
Lemma matches_loop_run (db : DB) (partner_ids : list string)
    (partners : list Profile.t) :
  users_canonical db ->
  (forall pid, In pid partner_ids -> registered db pid) ->
  exists found,
    matches_loop partner_ids partners db = (db, Return (partners ++ found)%list)
    /\ map Profile.id found = partner_ids
    /\ Forall (fun p => exists u, In u (db_user db)
                                   /\ p = Profile.of_user u (User.id u)) found.
Proof.
  intros Hcanon. revert partners.
  induction partner_ids as [|pid rest IH]; intros partners Hreg.
  - exists []. cbn. rewrite app_nil_r. repeat split. constructor.
  - destruct (Hreg pid (or_introl eq_refl)) as (u & Hu & Hid).
    cbn [matches_loop]. rewrite <- Hid. unfold User.id at 1.
    rewrite (of_str_canonical _ (Hcanon u Hu)). run_handler.
    destruct (find_one _ (db_user db)) as [v|] eqn:Hv.
    + apply find_some in Hv. destruct Hv as [Hvin Hq].
      apply ObjectId_eqb_eq in Hq.
      destruct (IH (partners ++ [Profile.of_user v (ObjectId.str (User._id v))])%list
                  (fun q Hq' => Hreg q (or_intror Hq')))
        as (found & Hrun & Hids & Hall).
      exists (Profile.of_user v (ObjectId.str (User._id v)) :: found).
      rewrite Hrun, <- app_assoc. cbn [app map Profile.id Profile.of_user].
      repeat split.
      * rewrite Hids, Hq. reflexivity.
      * constructor; [exists v; auto | exact Hall].
    + apply find_one_none_iff in Hv.
      assert (Hx : existsb (fun u0 => ObjectId.eqb (User._id u0) (User._id u))
                     (db_user db) = true).
      { apply existsb_exists. exists u. split; [exact Hu|apply String.eqb_refl]. }
      congruence.
Qed.

Lemma matches_run (db : DB) (user : User.t) :
  reachable db ->
  exists profiles,
    matches user db = (db, Return profiles)
    /\ map Profile.id profiles
       = map (partner_of (User.id user))
             (find (involves (User.id user)) (db_match db))
    /\ Forall (fun p => exists u, In u (db_user db)
                                   /\ p = Profile.of_user u (User.id u)) profiles.
Proof.
  intros Hreach. pose proof (reachable_invariant db Hreach) as Hinv.
  destruct (ledger_owned_reachable db Hreach) as [_ Hown].
  unfold matches. run_handler.
  apply (matches_loop_run db _ [] (inv_users_canonical db Hinv)).
  intros pid Hpid. apply in_map_iff in Hpid. destruct Hpid as (m & <- & Hm).
  apply filter_In in Hm. destruct Hm as [Hm _]. destruct (Hown m Hm) as [Ha Hb].
  unfold partner_of. destruct (_ =? _); assumption.
Qed.

(** X10. In a database the service can reach, [matches] never fails and
    writes nothing: for every Match record that names the user, in store
    order, it returns one profile, that of a stored user, whose id is the
    other party of the record (the user's own id for a Match of the user
    with themselves). *)
Theorem matches_one_partner_per_match (db : DB) (user : User.t) :
  reachable db ->
  exists profiles,
    matches user db = (db, Return profiles)
    /\ map Profile.id profiles
       = map (partner_of (User.id user))
             (find (involves (User.id user)) (db_match db))
    /\ List.length profiles
       = List.length (find (involves (User.id user)) (db_match db))
    /\ Forall (fun p => exists u, In u (db_user db)
                                   /\ p = Profile.of_user u (User.id u)) profiles.
Proof.
  intros Hreach. destruct (matches_run db user Hreach) as (ps & Hrun & Hids & Hall).
  exists ps. repeat split; try assumption.
  rewrite <- (length_map Profile.id), Hids, length_map. reflexivity.
Qed.

(** X11. In a database the service can reach, [matches] lists a profile
    with id [b] for a user if and only if the ledger holds a like from the
    user to [b] and a like from [b] to the user. *)
Theorem matches_iff_mutual_like (db : DB) (user : User.t) :
  reachable db ->
  exists profiles,
    matches user db = (db, Return profiles)
    /\ forall b,
         (exists p, In p profiles /\ Profile.id p = b)
         <-> (has_like (User.id user) b db = true
              /\ has_like b (User.id user) db = true).
Proof.
  intros Hreach. pose proof (reachable_invariant db Hreach) as Hinv.
  destruct (matches_run db user Hreach) as (ps & Hrun & Hids & _).
  exists ps. split; [exact Hrun|]. intros b.
  assert (Hlisted : (exists p, In p ps /\ Profile.id p = b)
                    <-> exists m, In m (db_match db)
                                  /\ match_between (User.id user) b m = true).
  { split.
    - intros (p & Hp & Hid).
      assert (Hin : In b (map Profile.id ps))
        by (rewrite <- Hid; apply in_map; exact Hp).
      rewrite Hids in Hin. apply in_map_iff in Hin.
      destruct Hin as (m & Hpart & Hm). apply filter_In in Hm.
      destruct Hm as [Hm Hinv']. exists m. split; [exact Hm|].
      apply involves_partner. auto.
    - intros (m & Hm & Hq). apply involves_partner in Hq. destruct Hq as [Hi Hp].
      assert (Hin : In b (map Profile.id ps)).
      { rewrite Hids, <- Hp. apply in_map. apply filter_In. auto. }
      apply in_map_iff in Hin. destruct Hin as (p & Hid & Hin). eauto. }
  rewrite Hlisted. split.
  - intros (m & Hm & Hq).
    destruct (inv_match_backed db Hinv m Hm) as [H1 H2].
    apply match_between_true in Hq.
    destruct Hq as [[Ha Hb]|[Ha Hb]]; rewrite Ha, Hb in H1, H2; auto.
  - intros [Hab Hba].
    pose proof (inv_mutual_matched db Hinv _ _ Hab Hba) as Hne.
    destruct (matches_of (User.id user) b db) as [|m l] eqn:Em; [congruence|].
    assert (Hin : In m (matches_of (User.id user) b db))
      by (rewrite Em; left; reflexivity).
    apply filter_In in Hin. exists m. exact Hin.
Qed.

(** ** Discovery after a swipe *)

Lemma swipe_db_swipe (t_swipe t_match : datetime) (payload : SwipeRequest)
    (user : User.t) (db : DB) :
  str_in (action payload) ["like"; "pass"] = true ->
  db_swipe (fst (swipe t_swipe t_match payload user db)) =
  (db_swipe db ++
   [Swipe.mk (User.id user) (target_id payload) (action payload) t_swipe])%list.
Proof.
  intros Hvalid. rewrite swipe_state; cbv zeta. rewrite Hvalid. cbn [negb].
  destruct (_ && _ && _); reflexivity.
Qed.

Lemma filter_map_swap {A B} (f : A -> B) (p : B -> bool) (l : list A) :
  filter p (map f l) = map f (filter (fun x => p (f x)) l).
Proof.
  induction l as [|x l IH]; cbn; [reflexivity|].
  destruct (p (f x)); cbn; rewrite IH; reflexivity.
Qed.

Lemma filter_and {A} (p q : A -> bool) (l : list A) :
  filter (fun x => p x && q x) l = filter q (filter p l).
Proof.
  induction l as [|x l IH]; cbn; [reflexivity|].
  destruct (p x); cbn; [destruct (q x)|]; rewrite IH; reflexivity.
Qed.

(** X12. After a swipe of a user on a target, like or pass, [discover]
    returns to that user what it returned before without the profiles
    whose id is the target, in the same order; and it returns to every
    other user what it returned before. *)
Theorem swipe_then_discover (db : DB) (user : User.t) (payload : SwipeRequest)
    (t_swipe t_match : datetime) :
  str_in (action payload) ["like"; "pass"] = true ->
  let db' := fst (swipe t_swipe t_match payload user db) in
  (exists before,
     discover user db = (db, Return before)
     /\ discover user db' =
        (db', Return (filter (fun p => negb (Profile.id p =? target_id payload))
                             before)))
  /\ (forall other, User.id other <> User.id user ->
        snd (discover other db') = snd (discover other db)).
Proof.
  intros Hvalid db'.
  assert (Hex : forall requester uid,
            excluded db' requester uid =
            excluded db requester uid
            || ((User.id user =? requester) && (target_id payload =? uid))).
  { intros requester uid. unfold excluded, db'.
    rewrite (swipe_db_swipe _ _ _ _ _ Hvalid), existsb_app. cbn.
    rewrite orb_false_r, orb_assoc. reflexivity. }
  split.
  - exists (discover_spec db user). split; [apply discover_run|].
    rewrite discover_run. f_equal. f_equal.
    unfold discover_spec, db'. rewrite swipe_db_user. fold db'.
    rewrite filter_map_swap. f_equal. cbn [Profile.id Profile.of_user].
    rewrite <- filter_and. apply filter_ext. intros u.
    rewrite Hex, String.eqb_refl, negb_orb. cbn [andb].
    rewrite (String.eqb_sym (target_id payload)). reflexivity.
  - intros other Hother. rewrite !discover_run. cbn [snd]. f_equal.
    unfold discover_spec, db'. rewrite swipe_db_user. fold db'.
    f_equal. apply filter_ext. intros u. rewrite Hex.
    apply not_eq_sym, String.eqb_neq in Hother. rewrite Hother.
    cbn. rewrite orb_false_r. reflexivity.
Qed.

(** X13. While the store holds at most 50 users, [discover] misses no one:
    every stored user who is not the requester and whom the requester has
    not swiped on is returned. *)
Theorem discover_complete_up_to_cap (db : DB) (user u : User.t) :
  List.length (db_user db) <= 50 ->
  In u (db_user db) ->
  excluded db (User.id user) (User.id u) = false ->
  exists profiles,
    discover user db = (db, Return profiles)
    /\ In (Profile.of_user u (User.id u)) profiles.
Proof.
  intros Hlen Hin Hex. exists (discover_spec db user).
  split; [apply discover_run|].
  unfold discover_spec. rewrite firstn_all2 by exact Hlen.
  apply (in_map (fun v => Profile.of_user v (User.id v))).
  apply filter_In. split; [exact Hin|].
  rewrite Hex. reflexivity.
Qed.

(** ** Public profiles *)

Lemma lower_length (s : string) : String.length (lower s) = String.length s.
Proof. induction s as [|c s IH]; cbn; congruence. Qed.

(** X14. [public_profile] writes nothing.  An id that is not 24 characters
    long fails with [InvalidId], which is no [HTTPException].  For an id of
    24 hexadecimal digits, in either letter case: when no stored user has
    these digits, in lower case, as [_id], it fails with
    [HTTPException(404, "User not found")]; and a profile it returns is
    that of a stored user with these digits as [_id]. *)
Theorem public_profile_outcomes (db : DB) (user_id : string) :
  fst (public_profile user_id db) = db
  /\ (String.length user_id <> 24 ->
      public_profile user_id db = (db, Raise (InvalidId user_id)))
  /\ (String.length user_id = 24 ->
      all_chars ObjectId.is_hex_digit user_id = true ->
      ((forall u, In u (db_user db) -> ObjectId.hex (User._id u) <> lower user_id) ->
       public_profile user_id db = (db, Raise (HTTPException 404 "User not found")))
      /\ (forall p, snd (public_profile user_id db) = Return p ->
            exists u, In u (db_user db)
                      /\ ObjectId.hex (User._id u) = lower user_id
                      /\ p = Profile.of_user u (User.id u))).
Proof.
  unfold public_profile, ObjectId.of_str. split; [|split].
  - destruct (_ && _); [|reflexivity]. run_handler.
    destruct (find_one _ _); reflexivity.
  - intros Hlen. apply Nat.eqb_neq in Hlen. rewrite Hlen. reflexivity.
  - intros Hlen Hhex. apply Nat.eqb_eq in Hlen. rewrite Hlen, Hhex. cbn [andb].
    run_handler. split.
    + intros Hnone. destruct (find_one _ _) as [u|] eqn:Hu; [|reflexivity].
      apply find_some in Hu. destruct Hu as [Hin Hq].
      unfold ObjectId.eqb in Hq. cbn in Hq. apply String.eqb_eq in Hq.
      destruct (Hnone u Hin Hq).
    + intros p Hp. destruct (find_one _ _) as [u|] eqn:Hu; [|discriminate Hp].
      apply find_some in Hu. destruct Hu as [Hin Hq].
      unfold ObjectId.eqb in Hq. cbn in Hq. apply String.eqb_eq in Hq.
      cbn in Hp. injection Hp as <-. exists u. repeat split; assumption.
Qed.


End Service.

(** * A concrete run of the service *)

(** A stand-in for SHA-256 in the runs below; no property depends on it. *)
Definition plain_hash (password : string) : string := "sha256:" ++ password.

Definition alice_oid : ObjectId.t := ObjectId.mk "64b000000000000000000001".
Definition bob_oid : ObjectId.t := ObjectId.mk "64b000000000000000000002".

Definition alice : User.t :=
  User.mk alice_oid "Alice" "alice@x.com" (plain_hash "a-secret")
          true None None None None [] [] 10%Z 10%Z.

Definition bob : User.t :=
  User.mk bob_oid "Bob" "bob@x.com" (plain_hash "b-secret")
          true None None None None [] [] 20%Z 20%Z.

(** Alice and Bob sign up and log in. *)
Definition two_users : list Request :=
  [ POST_auth_signup alice_oid 10 10 (mkSignupRequest "Alice" "Alice@X.com" "a-secret");
    POST_auth_signup bob_oid 20 20 (mkSignupRequest "Bob" "bob@x.com" "b-secret");
    POST_auth_login "token-of-alice" 30 (mkLoginRequest "alice@x.com" "a-secret");
    POST_auth_login "token-of-bob" 40 (mkLoginRequest "bob@x.com" "b-secret") ].

Definition db_two_users : DB := run plain_hash two_users empty_db.

(** Then Bob likes Alice. *)
Definition db_bob_likes_alice : DB :=
  run plain_hash
      [ POST_swipe 50 (Some "Bearer token-of-bob") 51 52
          (mkSwipeRequest (User.id alice) "like") ]
      db_two_users.

(** Then Alice likes Bob back. *)
Definition db_mutual_like : DB :=
  run plain_hash
      [ POST_swipe 60 (Some "Bearer token-of-alice") 61 62
          (mkSwipeRequest (User.id bob) "like") ]
      db_bob_likes_alice.

(** After sign-up and log-in, Alice likes her own id. *)
Definition db_alice_likes_alice : DB :=
  run plain_hash
      [ POST_swipe 60 (Some "Bearer token-of-alice") 61 62
          (mkSwipeRequest (User.id alice) "like") ]
      db_two_users.

(** The clock readings of three more swipes. *)
Definition three_more : list (datetime * datetime) :=
  [(71, 72); (73, 74); (75, 76)]%Z.

Lemma reachable_db_two_users : reachable plain_hash db_two_users.
Proof.
  apply reachable_run; [reflexivity | apply reachable_empty].
Defined.

Lemma reachable_db_bob_likes_alice : reachable plain_hash db_bob_likes_alice.
Proof.
  apply reachable_run; [reflexivity | apply reachable_db_two_users].
Defined.

Lemma reachable_db_mutual_like : reachable plain_hash db_mutual_like.
Proof.
  apply reachable_run; [reflexivity | apply reachable_db_bob_likes_alice].
Defined.

(** The users the handlers receive from [get_current_user] in these runs. *)
Example alice_authenticates :
  get_current_user 55 (Some "Bearer token-of-alice") db_bob_likes_alice
  = (db_bob_likes_alice, Return alice)
  /\ get_current_user 55 (Some "token-of-bob") db_bob_likes_alice
     = (db_bob_likes_alice, Return bob).
Proof. split; vm_compute; reflexivity. Qed.

Example bob_liked_alice :
  db_swipe db_bob_likes_alice = [Swipe.mk (User.id bob) (User.id alice) "like" 51]
  /\ db_match db_bob_likes_alice = []
  /\ db_match db_mutual_like = [Match.mk (User.id alice) (User.id bob) 62].
Proof. repeat split; vm_compute; reflexivity. Qed.

(** ** The claims at these runs *)


(** C3, as it is stated, fails when a user likes their own id: the ledger
    holds no like from Alice to Alice, and yet the call answers
    [match: true] and creates the record [Match(Alice, Alice)]. *)
Lemma swipe_one_sided_like_self_counterexample :
  get_current_user 55 (Some "Bearer token-of-alice") db_two_users
  = (db_two_users, Return alice)
  /\ has_like (User.id alice) (User.id alice) db_two_users = false
  /\ snd (swipe 61 62 (mkSwipeRequest (User.id alice) "like") alice db_two_users)
     = Return (mkSwipeResponse true true)
  /\ snd (swipe 61 62 (mkSwipeRequest (User.id alice) "like") alice db_two_users)
     <> Return (mkSwipeResponse true false)
  /\ db_match db_two_users = []
  /\ db_match (fst (swipe 61 62 (mkSwipeRequest (User.id alice) "like") alice
                          db_two_users))
     = [Match.mk (User.id alice) (User.id alice) 62].
Proof. repeat split; vm_compute; (reflexivity || discriminate). Qed.

(** C9, as it is stated, fails when A likes A's own id once more: the call
    answers [match: true], but it creates no Match record, the record
    [Match(Alice, Alice)] of the first self-like being found by the
    existence check; and the reciprocal query finds the swipe of the first
    self-like, not the one just inserted. *)
Lemma swipe_self_like_again_counterexample :
  get_current_user 70 (Some "Bearer token-of-alice") db_alice_likes_alice
  = (db_alice_likes_alice, Return alice)
  /\ db_match db_alice_likes_alice = [Match.mk (User.id alice) (User.id alice) 62]
  /\ snd (swipe 71 72 (mkSwipeRequest (User.id alice) "like") alice
                db_alice_likes_alice)
     = Return (mkSwipeResponse true true)
  /\ db_match (fst (swipe 71 72 (mkSwipeRequest (User.id alice) "like") alice
                          db_alice_likes_alice))
     = db_match db_alice_likes_alice
  /\ find_one (reciprocal_like (User.id alice) (User.id alice))
        (db_swipe (fst (swipe 71 72 (mkSwipeRequest (User.id alice) "like") alice
                              db_alice_likes_alice)))
     = Some (Swipe.mk (User.id alice) (User.id alice) "like" 61).
Proof. repeat split; vm_compute; reflexivity. Qed.

(** C3 as amended, at Alice's like of Bob before any like of Bob's. *)
Lemma swipe_one_sided_like_witness :
  User.id alice <> User.id bob
  /\ has_like (User.id bob) (User.id alice) db_two_users = false
  /\ snd (swipe 61 62 (mkSwipeRequest (User.id bob) "like") alice db_two_users)
     = Return (mkSwipeResponse true false)
  /\ db_match (fst (swipe 61 62 (mkSwipeRequest (User.id bob) "like") alice
                          db_two_users))
     = db_match db_two_users.
Proof.
  assert (Hneq : User.id alice <> User.id bob) by (vm_compute; discriminate).
  assert (Hnone : has_like (User.id bob) (User.id alice) db_two_users = false)
    by (vm_compute; reflexivity).
  destruct (swipe_one_sided_like db_two_users alice (User.id bob) 61 62 Hneq Hnone)
    as (H1 & H2 & _).
  repeat split; assumption.
Defined.

(** C4 at the action ["superlike"]. *)
Lemma swipe_invalid_action_witness :
  swipe 61 62 (mkSwipeRequest (User.id bob) "superlike") alice db_two_users
  = (db_two_users, Raise (HTTPException 400 "Invalid action")).
Proof.
  apply (swipe_invalid_action db_two_users alice
           (mkSwipeRequest (User.id bob) "superlike") 61 62);
    cbn; discriminate.
Defined.


(** C8 at three more likes of Bob by Alice after their mutual like. *)
Lemma swipe_repeated_like_witness :
  has_like (User.id alice) (User.id bob) db_mutual_like = true
  /\ has_like (User.id bob) (User.id alice) db_mutual_like = true
  /\ snd (swipe_many three_more
            (mkSwipeRequest (User.id bob) "like") alice db_mutual_like)
     = Return [mkSwipeResponse true true; mkSwipeResponse true true;
               mkSwipeResponse true true]
  /\ List.length
       (db_swipe (fst (swipe_many three_more
                         (mkSwipeRequest (User.id bob) "like") alice
                         db_mutual_like))) = 5
  /\ db_match (fst (swipe_many three_more
                      (mkSwipeRequest (User.id bob) "like") alice
                      db_mutual_like))
     = [Match.mk (User.id alice) (User.id bob) 62].
Proof.
  assert (Hab : has_like (User.id alice) (User.id bob) db_mutual_like = true)
    by (vm_compute; reflexivity).
  assert (Hba : has_like (User.id bob) (User.id alice) db_mutual_like = true)
    by (vm_compute; reflexivity).
  destruct (swipe_repeated_like plain_hash three_more
              db_mutual_like alice (User.id bob) reachable_db_mutual_like Hab Hba)
    as (H1 & _ & H3 & H4 & _).
  repeat split; assumption.
Defined.

(** ** More of the service at these runs *)


(** Alice logs in once more. *)
Definition alice_login : LoginRequest := mkLoginRequest "Alice@x.com" "a-secret".



(** X2 after the mutual like of Alice and Bob. *)
Lemma reachable_ledger_owned_witness : ledger_owned db_mutual_like.
Proof.
  exact (reachable_ledger_owned plain_hash db_mutual_like reachable_db_mutual_like).
Defined.

(** X3 for Alice and Bob, before and after Alice likes Bob back. *)
Lemma reachable_match_iff_mutual_like_witness :
  (matches_of (User.id alice) (User.id bob) db_bob_likes_alice <> []
   <-> has_like (User.id alice) (User.id bob) db_bob_likes_alice = true
       /\ has_like (User.id bob) (User.id alice) db_bob_likes_alice = true)
  /\ (matches_of (User.id alice) (User.id bob) db_mutual_like <> []
      <-> has_like (User.id alice) (User.id bob) db_mutual_like = true
          /\ has_like (User.id bob) (User.id alice) db_mutual_like = true).
Proof.
  split.
  - exact (reachable_match_iff_mutual_like plain_hash db_bob_likes_alice
             (User.id alice) (User.id bob) reachable_db_bob_likes_alice).
  - exact (reachable_match_iff_mutual_like plain_hash db_mutual_like
             (User.id alice) (User.id bob) reachable_db_mutual_like).
Defined.



(** X7 at one more login of Alice, a day later and a year later. *)
Lemma login_then_authenticate_witness :
  (exists user,
     get_current_user (100 + 24 * 3600 * 1000000) (Some "Bearer second-token")
       (fst (login plain_hash "second-token" 100 alice_login db_two_users))
     = (fst (login plain_hash "second-token" 100 alice_login db_two_users),
        Return user)
     /\ In user (db_user (fst (login plain_hash "second-token" 100 alice_login
                                db_two_users)))
     /\ User.id user = User.id alice)
  /\ get_current_user (100 + 365 * 24 * 3600 * 1000000)
       (Some "Bearer second-token")
       (fst (login plain_hash "second-token" 100 alice_login db_two_users))
     = (fst (login plain_hash "second-token" 100 alice_login db_two_users),
        Raise (HTTPException 401 "Invalid or expired token")).
Proof.
  assert (Hfresh : forall s, In s (db_session db_two_users) ->
                     Session.token s <> "second-token").
  { intros s [<-|[<-|[]]]; discriminate. }
  split.
  - apply (proj1 (login_then_authenticate plain_hash db_two_users "second-token"
                    100 (100 + 24 * 3600 * 1000000) alice_login
                    (mkLoginResponse "second-token"
                       (mkSignupResponse (User.id alice) "Alice" "alice@x.com"))
                    reachable_db_two_users eq_refl eq_refl Hfresh)).
    reflexivity.
  - apply (proj2 (login_then_authenticate plain_hash db_two_users "second-token"
                    100 (100 + 365 * 24 * 3600 * 1000000) alice_login
                    (mkLoginResponse "second-token"
                       (mkSignupResponse (User.id alice) "Alice" "alice@x.com"))
                    reachable_db_two_users eq_refl eq_refl Hfresh)).
    discriminate.
Defined.

(** X8 at Alice's header. *)
Lemma get_current_user_outcomes_witness :
  (exists user s,
     get_current_user 55 (Some "Bearer token-of-alice") db_two_users
     = (db_two_users, Return user)
     /\ In user (db_user db_two_users) /\ In s (db_session db_two_users)
     /\ Session.user_id s = User.id user /\ (55 < Session.expires_at s)%Z)
  \/ get_current_user 55 (Some "Bearer token-of-alice") db_two_users
     = (db_two_users, Raise (HTTPException 401 "Missing authorization header"))
  \/ get_current_user 55 (Some "Bearer token-of-alice") db_two_users
     = (db_two_users, Raise (HTTPException 401 "Invalid or expired token")).
Proof.
  exact (get_current_user_outcomes plain_hash db_two_users 55
           (Some "Bearer token-of-alice") reachable_db_two_users).
Defined.


(** X10 for Alice after the mutual like. *)
Lemma matches_one_partner_per_match_witness :
  exists profiles,
    matches alice db_mutual_like = (db_mutual_like, Return profiles)
    /\ map Profile.id profiles = [User.id bob]
    /\ List.length profiles = 1
    /\ Forall (fun p => exists u, In u (db_user db_mutual_like)
                                   /\ p = Profile.of_user u (User.id u)) profiles.
Proof.
  exact (matches_one_partner_per_match plain_hash db_mutual_like alice
           reachable_db_mutual_like).
Defined.

(** X11 for Alice after the mutual like. *)
Lemma matches_iff_mutual_like_witness :
  exists profiles,
    matches alice db_mutual_like = (db_mutual_like, Return profiles)
    /\ forall b,
         (exists p, In p profiles /\ Profile.id p = b)
         <-> (has_like (User.id alice) b db_mutual_like = true
              /\ has_like b (User.id alice) db_mutual_like = true).
Proof.
  exact (matches_iff_mutual_like plain_hash db_mutual_like alice
           reachable_db_mutual_like).
Defined.

(** X12 at Alice's pass on Bob. *)
Lemma swipe_then_discover_witness :
  (exists before,
     discover alice db_two_users = (db_two_users, Return before)
     /\ discover alice
          (fst (swipe 61 62 (mkSwipeRequest (User.id bob) "pass") alice db_two_users))
        = (fst (swipe 61 62 (mkSwipeRequest (User.id bob) "pass") alice db_two_users),
           Return (filter (fun p => negb (Profile.id p =? User.id bob)) before)))
  /\ (forall other, User.id other <> User.id alice ->
        snd (discover other
               (fst (swipe 61 62 (mkSwipeRequest (User.id bob) "pass") alice
                           db_two_users)))
        = snd (discover other db_two_users)).
Proof.
  exact (swipe_then_discover db_two_users alice
           (mkSwipeRequest (User.id bob) "pass") 61 62 eq_refl).
Defined.

(** X13 for Alice and Bob. *)
Lemma discover_complete_up_to_cap_witness :
  exists profiles,
    discover alice db_two_users = (db_two_users, Return profiles)
    /\ In (Profile.of_user bob (User.id bob)) profiles.
Proof.
  apply (discover_complete_up_to_cap db_two_users alice bob).
  - vm_compute. lia.
  - right. left. reflexivity.
  - reflexivity.
Defined.

